(** * Message stanzas of package xmpp: decoding and encoding

    A shallow embedding of [message.go]: the [Message] packet, its custom
    [UnmarshalXML], the [messageDecoder], [XMPPFormat], the message
    extensions and the registry [msgTypeRegistry] that [init] fills.
    ([msg_chat_markers.go] declares further structs and hands them to
    [typeRegistry], a registry that [Message.UnmarshalXML] never looks at;
    nothing here depends on it.)

    The program drives Go's [encoding/xml]. That package is modelled by the
    interface the program uses: a [Decoder] hands out tokens one by one
    ([Token]) and ends in an error; [DecodeElement] reads one element, from
    the start tag already read to the end tag that closes it, into a value
    whose kind (string, tagged struct, or a type with its own
    [UnmarshalXML]) selects how the element is stored. Names are the
    (name space, local name) pairs the tokenizer reports; text is followed
    no further down than tokens. The encoder is modelled by the tokens a
    [Decoder] reads back from what it writes, Go strings by their bytes
    and [escapeText] rune by rune. An extension value is one of the six
    structs or a pointer to one. *)

From Equations Require Import Equations.
From stdpp Require Import gmap strings list.

(** ** unicode/utf8 *)

Module utf8.

(** [utf8.RuneError], U+FFFD. *)
Definition RuneError : N := 0xFFFD.

Definition between (lo hi b : N) : bool := ((lo <=? b) && (b <=? hi))%N.

(** The six low bits of a continuation byte. *)
Definition low6 (b : N) : N := N.land b 0x3F.

(** [utf8.DecodeRuneInString]: the first rune of [s] and its width in
    bytes. An encoding that is not valid UTF-8 (a stray continuation byte,
    an overlong form, a surrogate, a rune beyond U+10FFFF, a sequence cut
    short) reads as [(RuneError, 1)]; the empty string as [(RuneError, 0)]. *)
Definition DecodeRuneInString (s : string) : N * nat :=
  match s with
  | "" => (RuneError, 0)
  | String c0 s1 =>
      let b0 := Ascii.N_of_ascii c0 in
      if (b0 <? 0x80)%N then (b0, 1)
      else if (b0 <? 0xC2)%N then (RuneError, 1)
      else if (b0 <? 0xE0)%N then
        match s1 with
        | String c1 _ =>
            let b1 := Ascii.N_of_ascii c1 in
            if between 0x80 0xBF b1
            then (N.lor (N.shiftl (N.land b0 0x1F) 6) (low6 b1), 2)
            else (RuneError, 1)
        | _ => (RuneError, 1)
        end
      else if (b0 <? 0xF0)%N then
        match s1 with
        | String c1 (String c2 _) =>
            let b1 := Ascii.N_of_ascii c1 in
            let b2 := Ascii.N_of_ascii c2 in
            if between (if (b0 =? 0xE0)%N then 0xA0 else 0x80)
                       (if (b0 =? 0xED)%N then 0x9F else 0xBF) b1 &&
               between 0x80 0xBF b2
            then (N.lor (N.shiftl (N.land b0 0x0F) 12)
                    (N.lor (N.shiftl (low6 b1) 6) (low6 b2)), 3)
            else (RuneError, 1)
        | _ => (RuneError, 1)
        end
      else if (b0 <? 0xF5)%N then
        match s1 with
        | String c1 (String c2 (String c3 _)) =>
            let b1 := Ascii.N_of_ascii c1 in
            let b2 := Ascii.N_of_ascii c2 in
            let b3 := Ascii.N_of_ascii c3 in
            if between (if (b0 =? 0xF0)%N then 0x90 else 0x80)
                       (if (b0 =? 0xF4)%N then 0x8F else 0xBF) b1 &&
               between 0x80 0xBF b2 && between 0x80 0xBF b3
            then (N.lor (N.shiftl (N.land b0 0x07) 18)
                    (N.lor (N.shiftl (low6 b1) 12)
                       (N.lor (N.shiftl (low6 b2) 6) (low6 b3))), 4)
            else (RuneError, 1)
        | _ => (RuneError, 1)
        end
      else (RuneError, 1)
  end.

(** Every rune of a string that is not empty takes at least one byte. *)
Lemma DecodeRune_width c s : 1 ≤ snd (DecodeRuneInString (String c s)).
Proof. unfold DecodeRuneInString. repeat case_match; simpl; try lia. Qed.

End utf8.

(** Go's [s[:n]] and [s[n:]], cut short at the end of the string. *)
Fixpoint string_take (n : nat) (s : string) : string :=
  match n, s with
  | S k, String c s' => String c (string_take k s')
  | _, _ => ""
  end.

Fixpoint string_drop (n : nat) (s : string) : string :=
  match n, s with
  | S k, String _ s' => string_drop k s'
  | _, _ => s
  end.

Lemma string_drop_length n s : String.length (string_drop n s) = String.length s - n.
Proof. revert s. induction n as [|n IH]; intros [|c s]; simpl; try done; lia. Qed.

(** ** encoding/xml *)

Module xml.

(** [xml.Name]: a name space and a local name. *)
Record Name := mkName { Space : string; Local : string }.

(** [xml.Attr]. *)
Record Attr := mkAttr { AName : Name; Value : string }.

(** [xml.StartElement] and [xml.EndElement]. *)
Record StartElement := mkStart { SName : Name; SAttr : list Attr }.

Record EndElement := mkEnd { EName : Name }.

(** [StartElement.End]: the end element that closes [start]. *)
Definition End (start : StartElement) : EndElement := mkEnd (SName start).

(** [xml.Token]: what [Decoder.Token] returns. *)
Inductive Token :=
| StartTok (s : StartElement)
| EndTok (e : EndElement)
| CharData (c : string)
| Comment (c : string)
| ProcInst (target inst : string)
| Directive (c : string).

(** The errors of a decode call: [io.EOF], a tokenizer failure
    ([*xml.SyntaxError], which includes an unexpected end of the input), an
    [xml.UnmarshalError] (a struct whose [XMLName] tag rejects the element),
    the package's complaint that an [UnmarshalXML] method "did not consume
    entire element", and whatever else a custom method returns. *)
Inductive error :=
| EOF
| SyntaxError
| UnmarshalError
| NotConsumed
| OtherError (code : nat).

#[global] Instance Name_eq_dec : EqDecision Name.
Proof. solve_decision. Defined.

#[global] Instance Attr_eq_dec : EqDecision Attr.
Proof. solve_decision. Defined.

#[global] Instance StartElement_eq_dec : EqDecision StartElement.
Proof. solve_decision. Defined.

#[global] Instance EndElement_eq_dec : EqDecision EndElement.
Proof. solve_decision. Defined.

#[global] Instance error_eq_dec : EqDecision error.
Proof. solve_decision. Defined.

(** A fallible library call: a value, or a non-nil error. *)
Inductive result (A : Type) :=
| ok (a : A)
| raise (e : error).

Arguments ok {A} a.
Arguments raise {A} e.

(** [*xml.Decoder], seen from the caller: the tokens it will still hand
    out, and the error [Token] returns once they are used up ([EOF] at the
    clean end of the input, [SyntaxError] where the tokenizer gives up). *)
Record Decoder := mkDecoder { pending : list Token; failure : error }.

(** How a call that takes the decoder ends: with a nil error and the
    decoder left at [d], or with a non-nil error. *)
Inductive outcome :=
| Done (d : Decoder)
| Failed (e : error).

(** [Decoder.Token]. *)
Definition Decoder_Token (d : Decoder) : result (Token * Decoder) :=
  match pending d with
  | [] => raise (failure d)
  | t :: ts => ok (t, mkDecoder ts (failure d))
  end.

(** The tokens up to the end tag that closes the current element, that
    tag included, and the tokens after it. [depth] counts the elements
    opened on the way, as [Decoder.Skip] does. [None]: the tokens run out
    first. *)
Fixpoint split_element (depth : nat) (ts : list Token) : option (list Token * list Token) :=
  match ts with
  | [] => None
  | StartTok s :: ts' =>
      '(e, r) ← split_element (S depth) ts'; Some (StartTok s :: e, r)
  | EndTok n :: ts' =>
      match depth with
      | 0 => Some ([EndTok n], ts')
      | S k => '(e, r) ← split_element k ts'; Some (EndTok n :: e, r)
      end
  | t :: ts' =>
      '(e, r) ← split_element depth ts'; Some (t :: e, r)
  end.

(** [Decoder.Skip]: read up to the end of the current element. *)
Definition Skip (d : Decoder) : result Decoder :=
  match split_element 0 (pending d) with
  | Some (_, rest) => ok (mkDecoder rest (failure d))
  | None => raise (failure d)
  end.

(** The character data directly inside the current element: the text of
    nested elements is skipped with them. *)
Fixpoint chardata (depth : nat) (ts : list Token) : string :=
  match ts with
  | [] => ""
  | StartTok _ :: ts' => chardata (S depth) ts'
  | EndTok _ :: ts' =>
      match depth with
      | 0 => ""
      | S k => chardata k ts'
      end
  | CharData c :: ts' =>
      match depth with
      | 0 => c +:+ chardata depth ts'
      | S _ => chardata depth ts'
      end
  | _ :: ts' => chardata depth ts'
  end.

(** [Decoder.DecodeElement] into a [*string]: the element is read to its
    end, then the string is set to its character data. On an error the
    string is left as it was. *)
Definition DecodeElement_string (d : Decoder) (start : StartElement) : result (string * Decoder) :=
  match split_element 0 (pending d) with
  | Some (elem, rest) => ok (chardata 0 elem, mkDecoder rest (failure d))
  | None => raise (failure d)
  end.

(** [Decoder.DecodeElement] into a value with an [UnmarshalXML] method
    [f] (the package's [unmarshalInterface]): while [f] runs, [Token]
    reports [EOF] once the element's own end tag has been read; a method
    that returns nil without having read the whole element is refused. *)
Definition unmarshalInterface {A : Type}
    (f : Decoder → StartElement → A → A * outcome)
    (d : Decoder) (val : A) (start : StartElement) : A * outcome :=
  match split_element 0 (pending d) with
  | Some (elem, rest) =>
      match f (mkDecoder elem EOF) start val with
      | (v, Failed err) => (v, Failed err)
      | (v, Done d') =>
          match pending d' with
          | [] => (v, Done (mkDecoder rest (failure d)))
          | _ :: _ => (v, Failed NotConsumed)
          end
      end
  | None =>
      match f d start val with
      | (v, Failed err) => (v, Failed err)
      | (v, Done _) => (v, Failed NotConsumed)
      end
  end.

(** Well-formed input, as trees: what the tokenizer produces from a
    document in which every element is closed by its own end tag. *)
#[warnings="-register-all"]
Inductive Node :=
| Element (s : StartElement) (kids : list Node)
| Text (c : string)
| CommentNode (c : string)
| ProcInstNode (target inst : string)
| DirectiveNode (c : string).

Fixpoint tokens_of (n : Node) : list Token :=
  match n with
  | Element s kids => StartTok s :: flat_map tokens_of kids ++ [EndTok (End s)]
  | Text c => [CharData c]
  | CommentNode c => [Comment c]
  | ProcInstNode t i => [ProcInst t i]
  | DirectiveNode c => [Directive c]
  end.

Definition forest_tokens (ns : list Node) : list Token := flat_map tokens_of ns.

(** The text of the nodes that are character data. *)
Fixpoint text_of (ns : list Node) : string :=
  match ns with
  | [] => ""
  | Text c :: ns' => c +:+ text_of ns'
  | _ :: ns' => text_of ns'
  end.

(** [isInCharacterRange]: the runes XML allows in a document. *)
Definition isInCharacterRange (r : N) : bool :=
  ((r =? 0x09) || (r =? 0x0A) || (r =? 0x0D) ||
   utf8.between 0x20 0xD7FF r || utf8.between 0xE000 0xFFFD r ||
   utf8.between 0x10000 0x10FFFF r)%N.

(** [escFFFD]: U+FFFD in UTF-8, the bytes EF BF BD. *)
Definition escFFFD : string :=
  String (Ascii.ascii_of_N 0xEF) (String (Ascii.ascii_of_N 0xBF)
    (String (Ascii.ascii_of_N 0xBD) "")).

(** The test of [escapeText] on a rune it has no named escape for: the
    rune is written as it is when XML allows it and it was not made up for
    a byte that is no UTF-8. *)
Definition writable (r : N) (width : nat) : bool :=
  isInCharacterRange r && negb ((r =? utf8.RuneError)%N && (width =? 1)).

(** The first rune of [s] as a [Decoder] reads it back from what
    [escapeText] wrote: the rune itself (the escapes for quotes,
    ampersand, angle brackets, tab, newline and carriage return are
    undone by the tokenizer), or U+FFFD in place of a rune XML does not
    allow. *)
Definition escaped (s : string) : string :=
  let '(r, width) := utf8.DecodeRuneInString s in
  if writable r width then string_take width s else escFFFD.

(** A Go string as it comes back from the encoder's output, character
    data or attribute value: [escapeText] rune by rune. *)
Equations written (s : string) : string by wf (String.length s) lt :=
  written "" := "";
  written (String c s') :=
    escaped (String c s') +:+
    written (string_drop (snd (utf8.DecodeRuneInString (String c s'))) (String c s')).
Next Obligation.
  intros c s' _. rewrite string_drop_length.
  pose proof (utf8.DecodeRune_width c s'). cbn [String.length]. lia.
Qed.

End xml.

Import xml.

(** ** Message extensions *)

(** XEP-0184 and XEP-0333 name spaces. *)
Definition NSSpaceXEP0184Receipt : string := "urn:xmpp:receipts".

Definition NSSpaceXEP0333ChatMarkers : string := "urn:xmpp:chat-markers:0".

(** What the embedded [MsgExtension] field of an extension struct holds:
    nil, or a value, known here by the elements the encoder writes for it.
    No decoder sets the field: [reflect.New] leaves it nil and
    [DecodeElement] skips an element that stands for it. *)
Definition embedded : Type := option (list Node).

(** The extension structs. Each has the embedded interface and its
    [XMLName]; the "received", "displayed" and "acknowledged" ones have an
    [Id], read from and written to the [id] attribute. *)
Inductive Extension :=
| ReceiptRequest (inner : embedded) (XMLName : Name)
| ReceiptReceived (inner : embedded) (XMLName : Name) (Id : string)
| ChatMarkerMarkable (inner : embedded) (XMLName : Name)
| ChatMarkerReceived (inner : embedded) (XMLName : Name) (Id : string)
| ChatMarkerDisplayed (inner : embedded) (XMLName : Name) (Id : string)
| ChatMarkerAcknowledged (inner : embedded) (XMLName : Name) (Id : string).

(** [MsgExtension], the empty interface, as far as messages go: one of
    the extension structs, or a pointer to one. A sender may store either;
    the decoder stores the pointer [reflect.New] returns. (Values of other
    types are left out: the claims speak of the registered structs.) *)
Inductive MsgExtension :=
| Pointer (target : Extension)
| Struct (value : Extension).

(** The struct itself, behind the pointer if there is one. *)
Definition ext_struct (v : MsgExtension) : Extension :=
  match v with
  | Pointer e | Struct e => e
  end.

(** [reflect.Type] of the extension structs, the values of the registry. *)
Inductive reflect_Type :=
| TReceiptRequest
| TReceiptReceived
| TChatMarkerMarkable
| TChatMarkerReceived
| TChatMarkerDisplayed
| TChatMarkerAcknowledged.

#[global] Instance reflect_Type_eq_dec : EqDecision reflect_Type.
Proof. solve_decision. Defined.

(** [reflect.TypeOf] of a struct value. *)
Definition reflect_TypeOf (e : Extension) : reflect_Type :=
  match e with
  | ReceiptRequest _ _ => TReceiptRequest
  | ReceiptReceived _ _ _ => TReceiptReceived
  | ChatMarkerMarkable _ _ => TChatMarkerMarkable
  | ChatMarkerReceived _ _ _ => TChatMarkerReceived
  | ChatMarkerDisplayed _ _ _ => TChatMarkerDisplayed
  | ChatMarkerAcknowledged _ _ _ => TChatMarkerAcknowledged
  end.

(** [reflect.New]: a pointer to a fresh zero value of the type; this is
    the zero value it points to. *)
Definition reflect_New (t : reflect_Type) : Extension :=
  match t with
  | TReceiptRequest => ReceiptRequest None (mkName "" "")
  | TReceiptReceived => ReceiptReceived None (mkName "" "") ""
  | TChatMarkerMarkable => ChatMarkerMarkable None (mkName "" "")
  | TChatMarkerReceived => ChatMarkerReceived None (mkName "" "") ""
  | TChatMarkerDisplayed => ChatMarkerDisplayed None (mkName "" "") ""
  | TChatMarkerAcknowledged => ChatMarkerAcknowledged None (mkName "" "") ""
  end.

(** The [xml:"space local"] tag on the struct's [XMLName] field. *)
Definition XMLName_tag (t : reflect_Type) : Name :=
  match t with
  | TReceiptRequest => mkName "urn:xmpp:receipts" "request"
  | TReceiptReceived => mkName "urn:xmpp:receipts" "received"
  | TChatMarkerMarkable => mkName "urn:xmpp:chat-markers:0" "markable"
  | TChatMarkerReceived => mkName "urn:xmpp:chat-markers:0" "received"
  | TChatMarkerDisplayed => mkName "urn:xmpp:chat-markers:0" "displayed"
  | TChatMarkerAcknowledged => mkName "urn:xmpp:chat-markers:0" "acknowledged"
  end.

Definition ext_embedded (e : Extension) : embedded :=
  match e with
  | ReceiptRequest v _ | ChatMarkerMarkable v _ => v
  | ReceiptReceived v _ _ | ChatMarkerReceived v _ _
  | ChatMarkerDisplayed v _ _ | ChatMarkerAcknowledged v _ _ => v
  end.

Definition ext_XMLName (e : Extension) : Name :=
  match e with
  | ReceiptRequest _ n | ChatMarkerMarkable _ n => n
  | ReceiptReceived _ n _ | ChatMarkerReceived _ n _
  | ChatMarkerDisplayed _ n _ | ChatMarkerAcknowledged _ n _ => n
  end.

Definition ext_set_XMLName (e : Extension) (n : Name) : Extension :=
  match e with
  | ReceiptRequest v _ => ReceiptRequest v n
  | ReceiptReceived v _ i => ReceiptReceived v n i
  | ChatMarkerMarkable v _ => ChatMarkerMarkable v n
  | ChatMarkerReceived v _ i => ChatMarkerReceived v n i
  | ChatMarkerDisplayed v _ i => ChatMarkerDisplayed v n i
  | ChatMarkerAcknowledged v _ i => ChatMarkerAcknowledged v n i
  end.

(** The fields tagged [xml:"id,attr"]: an attribute whose local name is
    "id" is stored in [Id]; structs without the field ignore it. *)
Definition ext_set_attr (e : Extension) (a : Attr) : Extension :=
  if decide (Local (AName a) = "id") then
    match e with
    | ReceiptReceived v n _ => ReceiptReceived v n (Value a)
    | ChatMarkerReceived v n _ => ChatMarkerReceived v n (Value a)
    | ChatMarkerDisplayed v n _ => ChatMarkerDisplayed v n (Value a)
    | ChatMarkerAcknowledged v n _ => ChatMarkerAcknowledged v n (Value a)
    | ReceiptRequest _ _ | ChatMarkerMarkable _ _ => e
    end
  else e.

(** What [DecodeElement] does with the start tag of a tagged struct: the
    element's name must be the one of the [XMLName] tag; then [XMLName]
    and the attribute fields are set. *)
Definition unmarshal_start (e : Extension) (start : StartElement) : result Extension :=
  let tag := XMLName_tag (reflect_TypeOf e) in
  if decide (Local tag ≠ "" ∧ Local tag ≠ Local (SName start)) then raise UnmarshalError
  else if decide (Space tag ≠ "" ∧ Space tag ≠ Space (SName start)) then raise UnmarshalError
  else ok (fold_left ext_set_attr (SAttr start) (ext_set_XMLName e (SName start))).

(** [Decoder.DecodeElement] through a pointer to an extension struct. No
    field of these structs takes character data, and the only field an
    element could stand for is the embedded interface, which is nil and
    stays so: the content is read to the end of the element and
    dropped. *)
Definition DecodeElement_struct (d : Decoder) (e : Extension) (start : StartElement) :
    result (Extension * Decoder) :=
  match unmarshal_start e start with
  | raise err => raise err
  | ok v =>
      match Skip d with
      | raise err => raise err
      | ok d' => ok (v, d')
      end
  end.

(** XEP-0066, [MsgXOOB]. *)
Record MsgXOOB := mkMsgXOOB { OOBName : Name; URL : string; Desc : string }.

(** ** The registry *)

(** [msgTypeRegistry]: name space, then local name, to the struct type. *)
Abbreviation Registry := (gmap string (gmap string reflect_Type)).

(** [msgTypeRegistry[space][local]]; a missing entry reads as nil. *)
Definition registry_lookup (reg : Registry) (n : Name) : option reflect_Type :=
  reg !! Space n ≫= λ m, m !! Local n.

(** [init]. *)
Definition init (reg : Registry) : Registry :=
  let reg := <[NSSpaceXEP0184Receipt := ∅]> reg in
  let reg := alter (insert "request" TReceiptRequest) NSSpaceXEP0184Receipt reg in
  let reg := alter (insert "received" TReceiptReceived) NSSpaceXEP0184Receipt reg in
  let reg := <[NSSpaceXEP0333ChatMarkers := ∅]> reg in
  let reg := alter (insert "markable" TChatMarkerMarkable) NSSpaceXEP0333ChatMarkers reg in
  let reg := alter (insert "received" TChatMarkerReceived) NSSpaceXEP0333ChatMarkers reg in
  let reg := alter (insert "displayed" TChatMarkerDisplayed) NSSpaceXEP0333ChatMarkers reg in
  alter (insert "acknowledged" TChatMarkerAcknowledged) NSSpaceXEP0333ChatMarkers reg.

(** The registry once the package is loaded. *)
Definition msgTypeRegistry : Registry := init ∅.

(** Every registered type sits under the name of its own [XMLName] tag. *)
Definition registry_coherent (reg : Registry) : Prop :=
  ∀ n t, registry_lookup reg n = Some t → XMLName_tag t = n.

(** ** The message packet *)

(** Modelled from the spec: the declaration of [PacketAttrs] is not among
    the sources. [NewMessage] names its fields; the spec has them as the
    stanza's core attributes [id], [from], [to], [type] and a language
    marker, all optional strings, written when they are not empty. *)
Record PacketAttrs := mkPacketAttrs {
  Id : string;
  From : string;
  To : string;
  Type_ : string;
  Lang : string
}.

Section Packet.

(** The [Err] struct is declared elsewhere in the package: its type, its
    zero value, its [UnmarshalXML] method and the elements it is written
    as are taken as given. *)
Context {Err : Type}.
Variable Err_zero : Err.
Variable Err_UnmarshalXML : Decoder → StartElement → Err → Err * outcome.
Variable Err_MarshalXML : Err → list Node.

Record Message := mkMessage {
  XMLName : Name;
  Attrs : PacketAttrs;
  Subject : string;
  Body : string;
  Thread : string;
  Error : Err;
  Extensions : list MsgExtension;
  X : option MsgXOOB
}.

(** [NewMessage]. *)
Definition NewMessage (msgtype from to id lang : string) : Message :=
  {| XMLName := mkName "" "message";
     Attrs := {| Id := id; From := from; To := to; Type_ := msgtype; Lang := lang |};
     Subject := ""; Body := ""; Thread := "";
     Error := Err_zero; Extensions := []; X := None |}.

(** [var packet Message]: the zero value. *)
Definition Message_zero : Message :=
  {| XMLName := mkName "" "";
     Attrs := {| Id := ""; From := ""; To := ""; Type_ := ""; Lang := "" |};
     Subject := ""; Body := ""; Thread := "";
     Error := Err_zero; Extensions := []; X := None |}.

(** Assignments to the fields of [*msg]. *)
Definition set_XMLName (msg : Message) (n : Name) : Message :=
  {| XMLName := n; Attrs := Attrs msg; Subject := Subject msg; Body := Body msg;
     Thread := Thread msg; Error := Error msg; Extensions := Extensions msg; X := X msg |}.

Definition set_Attrs (msg : Message) (a : PacketAttrs) : Message :=
  {| XMLName := XMLName msg; Attrs := a; Subject := Subject msg; Body := Body msg;
     Thread := Thread msg; Error := Error msg; Extensions := Extensions msg; X := X msg |}.

Definition set_Id (msg : Message) (v : string) : Message :=
  set_Attrs msg {| Id := v; From := From (Attrs msg); To := To (Attrs msg);
                   Type_ := Type_ (Attrs msg); Lang := Lang (Attrs msg) |}.

Definition set_Type (msg : Message) (v : string) : Message :=
  set_Attrs msg {| Id := Id (Attrs msg); From := From (Attrs msg); To := To (Attrs msg);
                   Type_ := v; Lang := Lang (Attrs msg) |}.

Definition set_To (msg : Message) (v : string) : Message :=
  set_Attrs msg {| Id := Id (Attrs msg); From := From (Attrs msg); To := v;
                   Type_ := Type_ (Attrs msg); Lang := Lang (Attrs msg) |}.

Definition set_From (msg : Message) (v : string) : Message :=
  set_Attrs msg {| Id := Id (Attrs msg); From := v; To := To (Attrs msg);
                   Type_ := Type_ (Attrs msg); Lang := Lang (Attrs msg) |}.

Definition set_Lang (msg : Message) (v : string) : Message :=
  set_Attrs msg {| Id := Id (Attrs msg); From := From (Attrs msg); To := To (Attrs msg);
                   Type_ := Type_ (Attrs msg); Lang := v |}.

Definition set_Subject (msg : Message) (v : string) : Message :=
  {| XMLName := XMLName msg; Attrs := Attrs msg; Subject := v; Body := Body msg;
     Thread := Thread msg; Error := Error msg; Extensions := Extensions msg; X := X msg |}.

Definition set_Body (msg : Message) (v : string) : Message :=
  {| XMLName := XMLName msg; Attrs := Attrs msg; Subject := Subject msg; Body := v;
     Thread := Thread msg; Error := Error msg; Extensions := Extensions msg; X := X msg |}.

Definition set_Thread (msg : Message) (v : string) : Message :=
  {| XMLName := XMLName msg; Attrs := Attrs msg; Subject := Subject msg; Body := Body msg;
     Thread := v; Error := Error msg; Extensions := Extensions msg; X := X msg |}.

Definition set_Error (msg : Message) (v : Err) : Message :=
  {| XMLName := XMLName msg; Attrs := Attrs msg; Subject := Subject msg; Body := Body msg;
     Thread := Thread msg; Error := v; Extensions := Extensions msg; X := X msg |}.

Definition set_Extensions (msg : Message) (v : list MsgExtension) : Message :=
  {| XMLName := XMLName msg; Attrs := Attrs msg; Subject := Subject msg; Body := Body msg;
     Thread := Thread msg; Error := Error msg; Extensions := v; X := X msg |}.

Definition set_X (msg : Message) (v : option MsgXOOB) : Message :=
  {| XMLName := XMLName msg; Attrs := Attrs msg; Subject := Subject msg; Body := Body msg;
     Thread := Thread msg; Error := Error msg; Extensions := Extensions msg; X := v |}.

(** *** Message.UnmarshalXML *)

(** The body of [for _, attr := range start.Attr]: five tests on the
    attribute's local name, one after the other. *)
Definition extract_attr (msg : Message) (attr : Attr) : Message :=
  let msg := if decide (Local (AName attr) = "id") then set_Id msg (Value attr) else msg in
  let msg := if decide (Local (AName attr) = "type") then set_Type msg (Value attr) else msg in
  let msg := if decide (Local (AName attr) = "to") then set_To msg (Value attr) else msg in
  let msg := if decide (Local (AName attr) = "from") then set_From msg (Value attr) else msg in
  if decide (Local (AName attr) = "lang") then set_Lang msg (Value attr) else msg.

(** One turn of the loop over the inner elements either returns from
    [UnmarshalXML] or goes round again. *)
Inductive turn :=
| Return (msg : Message) (o : outcome)
| Continue (msg : Message) (d : Decoder).

(** The body of [for { ... }]; [tt'] is the source's [tt]. *)
Definition iteration (reg : Registry) (start : StartElement) (d : Decoder) (msg : Message) : turn :=
  match Decoder_Token d with
  | raise err => Return msg (Failed err)
  | ok (t, d) =>
      match t with
      | StartTok tt' =>
          match registry_lookup reg (SName tt') with
          | Some extensionType =>
              (* [elt] is the pointer [reflect.New] returns. The assertion
                 [elt.(MsgExtension)] holds of every value: the interface
                 is empty. [DecodeElement] fills the struct behind the
                 pointer, and the pointer is what is appended. *)
              match DecodeElement_struct d (reflect_New extensionType) tt' with
              | raise err => Return msg (Failed err)
              | ok (msgExt, d) =>
                  Continue (set_Extensions msg (Extensions msg ++ [Pointer msgExt])) d
              end
          | None =>
              if decide (Local (SName tt') = "body") then
                match DecodeElement_string d tt' with
                | raise err => Return msg (Failed err)
                | ok (v, d) => Continue (set_Body msg v) d
                end
              else if decide (Local (SName tt') = "thread") then
                match DecodeElement_string d tt' with
                | raise err => Return msg (Failed err)
                | ok (v, d) => Continue (set_Thread msg v) d
                end
              else if decide (Local (SName tt') = "subject") then
                match DecodeElement_string d tt' with
                | raise err => Return msg (Failed err)
                | ok (v, d) => Continue (set_Subject msg v) d
                end
              else if decide (Local (SName tt') = "error") then
                match unmarshalInterface Err_UnmarshalXML d (Error msg) tt' with
                | (v, Failed err) => Return (set_Error msg v) (Failed err)
                | (v, Done d) => Continue (set_Error msg v) d
                end
              else Continue msg d
          end
      | EndTok tt' =>
          if decide (tt' = End start) then Return msg (Done d) else Continue msg d
      | _ => Continue msg d
      end
  end.

(** Every turn that goes round again has taken at least one token. *)
Lemma split_element_shorter depth ts elem rest :
  split_element depth ts = Some (elem, rest) → length rest < length ts.
Proof.
  revert depth elem rest.
  induction ts as [|t ts IH]; intros depth elem rest H; [done|].
  destruct t; simpl in H;
    try (destruct (split_element depth ts) as [[e r]|] eqn:E; simplify_eq/=;
         apply IH in E; lia).
  - destruct (split_element (S depth) ts) as [[e r]|] eqn:E; simplify_eq/=.
    apply IH in E. lia.
  - destruct depth as [|k]; [simplify_eq/=; lia|].
    destruct (split_element k ts) as [[e' r]|] eqn:E; simplify_eq/=.
    apply IH in E. lia.
Qed.

Lemma iteration_shorter reg start d msg msg' d' :
  iteration reg start d msg = Continue msg' d' →
  length (pending d') < length (pending d).
Proof.
  unfold iteration, Decoder_Token, DecodeElement_struct, DecodeElement_string,
    Skip, unmarshalInterface.
  destruct (pending d) as [|t ts]; [done|].
  intros H. repeat case_match; simplify_eq/=;
    repeat match goal with
    | E : split_element _ _ = Some _ |- _ => apply split_element_shorter in E
    end; lia.
Qed.

Definition inspect {A : Type} (a : A) : {b : A | a = b} := exist _ a eq_refl.

(** [for { ... }]: the turns, until one returns. *)
Equations loop (reg : Registry) (start : StartElement) (d : Decoder) (msg : Message) :
    Message * outcome by wf (length (pending d)) lt :=
  loop reg start d msg with inspect (iteration reg start d msg) => {
    | exist _ (Return msg' o) _ := (msg', o);
    | exist _ (Continue msg' d') Heq := loop reg start d' msg' }.
Next Obligation.
  intros reg start d msg msg' d' Heq _. exact (iteration_shorter _ _ _ _ _ _ Heq).
Qed.

(** [(msg *Message) UnmarshalXML(d, start)]: the message as the call
    leaves it, and how the call ends. *)
Definition Message_UnmarshalXML (reg : Registry) (d : Decoder) (start : StartElement)
    (msg : Message) : Message * outcome :=
  let msg := set_XMLName msg (SName start) in
  let msg := fold_left extract_attr (SAttr start) msg in
  loop reg start d msg.

(** [messageDecoder.decode]: [DecodeElement] into a fresh packet; the
    packet is returned together with the error. *)
Definition decode (reg : Registry) (p : Decoder) (se : StartElement) : Message * outcome :=
  unmarshalInterface (Message_UnmarshalXML reg) p Message_zero se.

(** The message as a turn of the loop leaves it. *)
Definition turn_msg (t : turn) : Message :=
  match t with
  | Return msg _ | Continue msg _ => msg
  end.

(** *** Message.XMPPFormat *)

(** [xml.MarshalIndent(msg, "", "")] writes the struct by its field tags,
    with no indentation. The text it returns is modelled by the tokens a
    [Decoder] reads back from it: the start tag, the children in the order
    of the fields, the end tag. Every Go string goes through [escapeText]
    on its way out, and comes back as [written] has it. *)

(** An attribute tagged [omitempty]. *)
Definition attr_omitempty (name value : string) : list Attr :=
  if decide (value = "") then [] else [mkAttr (mkName "" name) (written value)].

(** Modelled from the spec: the field tags of [PacketAttrs] are not among
    the sources; "emit the stanza start tag with all non-empty core
    attributes". *)
Definition PacketAttrs_attrs (a : PacketAttrs) : list Attr :=
  attr_omitempty "id" (Id a) ++ attr_omitempty "from" (From a) ++
  attr_omitempty "to" (To a) ++ attr_omitempty "type" (Type_ a) ++
  attr_omitempty "lang" (Lang a).

(** Character data; an empty text leaves no token. *)
Definition text_nodes (c : string) : list Node :=
  if decide (c = "") then [] else [Text c].

(** A string field tagged [xml:"name,omitempty"]. *)
Definition string_omitempty (name value : string) : list Node :=
  if decide (value = "") then []
  else [Element (mkStart (mkName "" name) []) (text_nodes (written value))].

(** The encoder writes the name space of an element as its [xmlns]
    attribute. *)
Definition xmlns_attr (space : string) : list Attr :=
  if decide (space = "") then [] else [mkAttr (mkName "" "xmlns") space].

(** The fields tagged [xml:"id,attr"]: written even when empty. *)
Definition ext_attrs (e : Extension) : list Attr :=
  match e with
  | ReceiptRequest _ _ | ChatMarkerMarkable _ _ => []
  | ReceiptReceived _ _ i | ChatMarkerReceived _ _ i
  | ChatMarkerDisplayed _ _ i | ChatMarkerAcknowledged _ _ i =>
      [mkAttr (mkName "" "id") (written i)]
  end.

(** What is written for the embedded interface: nothing for nil. *)
Definition embedded_nodes (v : embedded) : list Node :=
  match v with
  | Some nodes => nodes
  | None => []
  end.

(** An extension, struct or pointer to it: the element is named by the
    tag of [XMLName], whatever name the field holds. *)
Definition MsgExtension_node (v : MsgExtension) : Node :=
  let e := ext_struct v in
  let tag := XMLName_tag (reflect_TypeOf e) in
  Element (mkStart tag (xmlns_attr (Space tag) ++ ext_attrs e))
    (embedded_nodes (ext_embedded e)).

(** [MsgXOOB]: [<x xmlns="jabber:x:oob">] with [url] and, unless empty,
    [desc]. The name space is written on [x]; the tokenizer reports it
    for [url] and [desc], which inherit it. *)
Definition MsgXOOB_node (x : MsgXOOB) : Node :=
  let ns := "jabber:x:oob" in
  Element (mkStart (mkName ns "x") (xmlns_attr ns))
    (Element (mkStart (mkName ns "url") []) (text_nodes (written (URL x))) ::
     if decide (Desc x = "") then []
     else [Element (mkStart (mkName ns "desc") []) (text_nodes (written (Desc x)))]).

Definition Message_children (msg : Message) : list Node :=
  string_omitempty "subject" (Subject msg) ++
  string_omitempty "body" (Body msg) ++
  string_omitempty "thread" (Thread msg) ++
  Err_MarshalXML (Error msg) ++
  map MsgExtension_node (Extensions msg) ++
  match X msg with
  | Some x => [MsgXOOB_node x]
  | None => []
  end.

Definition XMPPFormat (msg : Message) : list Token :=
  tokens_of (Element (mkStart (mkName "" "message") (PacketAttrs_attrs (Attrs msg)))
               (Message_children msg)).

(** Decoding what [XMPPFormat] wrote: the caller reads the start tag and
    hands the rest to [decode]. *)
Definition reparse (reg : Registry) (msg : Message) : option (Message * outcome) :=
  match XMPPFormat msg with
  | StartTok se :: ts => Some (decode reg (mkDecoder ts EOF) se)
  | _ => None
  end.

(** *** The loop, read on trees *)

(** The local names the loop decodes into core fields. *)
Definition core_names : list string := ["body"; "thread"; "subject"; "error"].

(** An element the loop has no use for, all the way down: neither it nor
    anything inside it is registered, bears a core name, or is named like
    the stanza. *)
Fixpoint inertb (reg : Registry) (start : StartElement) (n : Node) : bool :=
  match n with
  | Element s kids =>
      bool_decide (registry_lookup reg (SName s) = None) &&
      bool_decide (Local (SName s) ∉ core_names) &&
      bool_decide (End s ≠ End start) &&
      forallb (inertb reg start) kids
  | _ => true
  end.

(** No element of the tree, at any depth, is named like the stanza. *)
Fixpoint namesake_free (start : StartElement) (n : Node) : bool :=
  match n with
  | Element s kids =>
      bool_decide (End s ≠ End start) && forallb (namesake_free start) kids
  | _ => true
  end.

(** A child of the stanza that one turn of the loop takes whole: anything
    but an element, a registered element, a [body], [thread] or [subject]
    element, or an element of no use. *)
Definition plain_child (reg : Registry) (start : StartElement) (n : Node) : bool :=
  match n with
  | Element s kids =>
      bool_decide (is_Some (registry_lookup reg (SName s))) ||
      bool_decide (Local (SName s) ∈ ["body"; "thread"; "subject"]) ||
      inertb reg start n
  | _ => true
  end.

(** The extension value a registered element is stored as: a pointer to
    a struct of the registered type, named and given its attributes by
    the start tag. *)
Definition ext_instance (t : reflect_Type) (s : StartElement) : MsgExtension :=
  Pointer (fold_left ext_set_attr (SAttr s) (ext_set_XMLName (reflect_New t) (SName s))).

(** What a plain child does to the message. *)
Definition child_effect (reg : Registry) (n : Node) (msg : Message) : Message :=
  match n with
  | Element s kids =>
      match registry_lookup reg (SName s) with
      | Some t => set_Extensions msg (Extensions msg ++ [ext_instance t s])
      | None =>
          if decide (Local (SName s) = "body") then set_Body msg (text_of kids)
          else if decide (Local (SName s) = "thread") then set_Thread msg (text_of kids)
          else if decide (Local (SName s) = "subject") then set_Subject msg (text_of kids)
          else msg
      end
  | _ => msg
  end.

Definition children_effect (reg : Registry) (kids : list Node) (msg : Message) : Message :=
  fold_left (λ m n, child_effect reg n m) kids msg.

(** The registered elements among the children, as extension values, in
    document order. *)
Definition ext_children (reg : Registry) (kids : list Node) : list MsgExtension :=
  omap (λ n, match n with
             | Element s _ => t ← registry_lookup reg (SName s); Some (ext_instance t s)
             | _ => None
             end) kids.

(** An extension value of a registered type, named as its type is
    registered: a pointer to such a struct. *)
Definition registered_instance (reg : Registry) (v : MsgExtension) : Prop :=
  v = Pointer (ext_struct v) ∧
  registry_lookup reg (ext_XMLName (ext_struct v)) = Some (reflect_TypeOf (ext_struct v)).

(** The [body] children that no registration claims. *)
Definition is_body (reg : Registry) (n : Node) : bool :=
  match n with
  | Element s _ =>
      bool_decide (registry_lookup reg (SName s) = None) &&
      bool_decide (Local (SName s) = "body")
  | _ => false
  end.

(** The core attribute a local name stands for. *)
Definition attr_field (l : string) (a : PacketAttrs) : string :=
  if decide (l = "id") then Id a
  else if decide (l = "type") then Type_ a
  else if decide (l = "to") then To a
  else if decide (l = "from") then From a
  else if decide (l = "lang") then Lang a
  else "".

Definition attr_names : list string := ["id"; "type"; "to"; "from"; "lang"].


(** The [Err] methods behave on the payload [e]: either nothing is written
    for it and it is the zero value, or it is written as one [error]
    element that [UnmarshalXML] reads back into [e], to the end. *)
Definition Err_reads_back (reg : Registry) (e : Err) : Prop :=
  (Err_MarshalXML e = [] ∧ e = Err_zero) ∨
  (∃ s kids fail,
     Err_MarshalXML e = [Element s kids] ∧
     registry_lookup reg (SName s) = None ∧
     Local (SName s) = "error" ∧
     Err_UnmarshalXML (mkDecoder (forest_tokens kids ++ [EndTok (End s)]) EOF) s Err_zero
       = (e, Done (mkDecoder [] fail))).

(** [Err.UnmarshalXML] reads every complete element to its end and
    returns nil. *)
Definition Err_total : Prop :=
  ∀ elem s e, split_element 0 elem = Some (elem, []) →
    ∃ v fail, Err_UnmarshalXML (mkDecoder elem EOF) s e = (v, Done (mkDecoder [] fail)).

End Packet.

(** ** A stand-in for [Err], and sample stanzas *)

(** The least an error payload can be: present or not. Present, it is
    written as an empty [error] element; reading one sets it. *)
Definition flag_UnmarshalXML (d : Decoder) (start : StartElement) (e : bool) : bool * outcome :=
  match Skip d with
  | ok d' => (true, Done d')
  | raise err => (e, Failed err)
  end.

Definition flag_MarshalXML (e : bool) : list Node :=
  if e then [Element (mkStart (mkName "" "error") []) []] else [].

(** An element without attributes. *)
Definition elem (space local : string) (kids : list Node) : Node :=
  Element (mkStart (mkName space local) []) kids.

(** [<message xmlns="jabber:client" id="1">]. *)
Definition message_start : StartElement :=
  mkStart (mkName "jabber:client" "message")
    [mkAttr (mkName "" "xmlns") "jabber:client"; mkAttr (mkName "" "id") "1"].

(** A forwarded message (XEP-0297) inside a message, followed by the
    outer body:
    [<forwarded xmlns="urn:xmpp:forward:0"><message xmlns="jabber:client">
     <body>inner</body></message></forwarded><body>outer</body>]. *)
Definition forwarded_children : list Node :=
  [elem "urn:xmpp:forward:0" "forwarded"
     [elem "jabber:client" "message" [elem "jabber:client" "body" [Text "inner"]]];
   elem "jabber:client" "body" [Text "outer"]].

(** The tokens of the next stanza on the stream, [<presence/>]. *)
Definition next_stanza : list Token := tokens_of (elem "jabber:client" "presence" []).

(** Out-of-band data:
    [<x xmlns="jabber:x:oob"><url>http://example.org/f.png</url></x>]. *)
Definition oob_children : list Node :=
  [elem "jabber:client" "body" [Text "see"];
   elem "jabber:x:oob" "x" [elem "jabber:x:oob" "url" [Text "http://example.org/f.png"]]].

(** A stanza cut off after its body: [<body>hi</body>], then the
    tokenizer fails. *)
Definition truncated : Decoder :=
  mkDecoder (tokens_of (elem "jabber:client" "body" [Text "hi"])) SyntaxError.

(** Two bodies, "first" then "second". *)
Definition first_body : Node := elem "jabber:client" "body" [Text "first"].

Definition second_body : StartElement := mkStart (mkName "jabber:client" "body") [].

(** Three registered extensions:
    [<request xmlns="urn:xmpp:receipts"/>],
    [<markable xmlns="urn:xmpp:chat-markers:0"/>],
    [<received xmlns="urn:xmpp:chat-markers:0" id="m1"/>]. *)
Definition three_extensions : list Node :=
  [elem "urn:xmpp:receipts" "request" [];
   elem "urn:xmpp:chat-markers:0" "markable" [];
   Element (mkStart (mkName "urn:xmpp:chat-markers:0" "received")
              [mkAttr (mkName "" "id") "m1"]) []].

(** Two bodies and the XHTML-IM rendering of the second (XEP-0071):
    [<body>first</body><body>second</body>
     <html xmlns="http://jabber.org/protocol/xhtml-im">
     <body xmlns="http://www.w3.org/1999/xhtml"><p>second</p></body></html>]. *)
Definition xhtml_children : list Node :=
  [first_body; Element second_body [Text "second"];
   elem "http://jabber.org/protocol/xhtml-im" "html"
     [elem "http://www.w3.org/1999/xhtml" "body"
        [elem "http://www.w3.org/1999/xhtml" "p" [Text "second"]]]].

(** A forwarded message, empty, in front of a receipt:
    [<forwarded xmlns="urn:xmpp:forward:0"><message xmlns="jabber:client"/>
     </forwarded><received xmlns="urn:xmpp:receipts" id="m1"/>]. *)
Definition receipt_behind_forwarded : list Node :=
  [elem "urn:xmpp:forward:0" "forwarded" [elem "jabber:client" "message" []];
   Element (mkStart (mkName "urn:xmpp:receipts" "received")
              [mkAttr (mkName "" "id") "m1"]) []].

(** The three registered extensions, then an element nobody registered
    that holds a receipt request:
    [<wrap xmlns="urn:example:wrap"><request xmlns="urn:xmpp:receipts"/></wrap>]. *)
Definition wrapped_request : list Node :=
  three_extensions ++
  [elem "urn:example:wrap" "wrap" [elem "urn:xmpp:receipts" "request" []]].

(** A child nobody registered, with content of its own, and a body. *)
Definition unknown_children : list Node :=
  [elem "urn:example:geo" "geoloc" [elem "urn:example:geo" "lat" [Text "48.2"]; Text " "];
   elem "jabber:client" "body" [Text "here"]].

(** A message with every string set, two extensions and an error. *)
Definition full_message : @Message bool :=
  {| XMLName := mkName "" "message";
     Attrs := {| Id := "42"; From := "alice"; To := "bob"; Type_ := "chat"; Lang := "en" |};
     Subject := "s"; Body := "b"; Thread := "t";
     Error := true;
     Extensions :=
       [Pointer (ReceiptRequest None (mkName "urn:xmpp:receipts" "request"));
        Pointer (ChatMarkerReceived None (mkName "urn:xmpp:chat-markers:0" "received") "m1")];
     X := None |}.

(** The same with out-of-band data. *)
Definition oob_message : @Message bool :=
  set_X full_message
    (Some {| OOBName := mkName "jabber:x:oob" "x"; URL := "http://example.org/f.png";
             Desc := "a picture" |}).

(** The same as decoded from a [jabber:client] stream. *)
Definition client_message : @Message bool :=
  set_XMLName full_message (mkName "jabber:client" "message").

(** The same with the extension a sender builds as [ReceiptRequest{}]: a
    struct value whose [XMLName] is not set. *)
Definition sender_message : @Message bool :=
  set_Extensions full_message [Struct (ReceiptRequest None (mkName "" ""))].

(** The same with that extension named as its tag has it: still a struct
    value, where the decoder stores a pointer. *)
Definition value_message : @Message bool :=
  set_Extensions full_message
    [Struct (ReceiptRequest None (mkName "urn:xmpp:receipts" "request"))].

(** The same with an extension whose embedded interface is not nil: it
    holds a nil pointer, for which nothing is written. *)
Definition embedding_message : @Message bool :=
  set_Extensions full_message
    [Pointer (ReceiptRequest (Some []) (mkName "urn:xmpp:receipts" "request"))].

(** The same with a body that holds a control character: "a", the byte
    01, "b". *)
Definition control_message : @Message bool :=
  set_Body full_message
    ("a" +:+ String (Ascii.ascii_of_N 1) "b").

(** That body with U+FFFD in place of the control character. *)
Definition replaced_body : string := "a" +:+ escFFFD +:+ "b".

(** ** The packet's name, and what a reader gets back *)

(** [Message.Name]. *)
Definition Message_Name {Err : Type} (msg : @Message Err) : string := "message".

(** The [Id] field of an extension struct; the "request" and "markable"
    structs have none. *)
Definition ext_Id (e : Extension) : option string :=
  match e with
  | ReceiptRequest _ _ | ChatMarkerMarkable _ _ => None
  | ReceiptReceived _ _ i | ChatMarkerReceived _ _ i
  | ChatMarkerDisplayed _ _ i | ChatMarkerAcknowledged _ _ i => Some i
  end.

(** The structs with a field tagged [xml:"id,attr"]. *)
Definition has_Id (t : reflect_Type) : bool :=
  match t with
  | TReceiptRequest | TChatMarkerMarkable => false
  | TReceiptReceived | TChatMarkerReceived
  | TChatMarkerDisplayed | TChatMarkerAcknowledged => true
  end.

(** A Go string that comes back from the encoder's output as it is: valid
    UTF-8, and no rune that XML does not allow. *)
Definition verbatim (s : string) : Prop := written s = s.

(** An extension value as it comes back: a pointer to a struct of the
    same type under the name of the struct's tag, with nothing embedded
    and the [Id] as it is written. *)
Definition retag (v : MsgExtension) : MsgExtension :=
  Pointer
    match ext_struct v with
    | ReceiptRequest _ _ => ReceiptRequest None (XMLName_tag TReceiptRequest)
    | ReceiptReceived _ _ i => ReceiptReceived None (XMLName_tag TReceiptReceived) (written i)
    | ChatMarkerMarkable _ _ => ChatMarkerMarkable None (XMLName_tag TChatMarkerMarkable)
    | ChatMarkerReceived _ _ i =>
        ChatMarkerReceived None (XMLName_tag TChatMarkerReceived) (written i)
    | ChatMarkerDisplayed _ _ i =>
        ChatMarkerDisplayed None (XMLName_tag TChatMarkerDisplayed) (written i)
    | ChatMarkerAcknowledged _ _ i =>
        ChatMarkerAcknowledged None (XMLName_tag TChatMarkerAcknowledged) (written i)
    end.

(** An extension value that comes back as it is. *)
Definition faithful (v : MsgExtension) : Prop :=
  ∃ e, v = Pointer e ∧ ext_embedded e = None ∧
       ext_XMLName e = XMLName_tag (reflect_TypeOf e) ∧
       ∀ i, ext_Id e = Some i → verbatim i.

(** The attributes as they come back. *)
Definition written_attrs (a : PacketAttrs) : PacketAttrs :=
  {| Id := written (Id a); From := written (From a); To := written (To a);
     Type_ := written (Type_ a); Lang := written (Lang a) |}.

(** A message without out-of-band data as it comes back: under the name
    the encoder writes, every string as it is written, every extension
    as [retag] has it. *)
Definition reparsed {Err : Type} (msg : @Message Err) : Message :=
  {| XMLName := mkName "" "message";
     Attrs := written_attrs (Attrs msg);
     Subject := written (Subject msg);
     Body := written (Body msg);
     Thread := written (Thread msg);
     Error := Error msg;
     Extensions := map retag (Extensions msg);
     X := X msg |}.

(** The local names the attribute loop looks for, as they occur on a
    start tag. *)
Definition recognised (attrs : list Attr) : list string :=
  map (λ a, Local (AName a)) (filter (λ a, Local (AName a) ∈ attr_names) attrs).

(** An extension value read from a start tag the decoder held: the tag's
    name is registered, and the value is the instance of the registered
    type for that tag (a pointer to the struct). *)
Definition read_from (reg : Registry) (d : Decoder) (v : MsgExtension) : Prop :=
  ∃ s, StartTok s ∈ pending d ∧
       registry_lookup reg (SName s) = Some (reflect_TypeOf (ext_struct v)) ∧
       v = ext_instance (reflect_TypeOf (ext_struct v)) s.

(** A stanza that reuses a message: [<message to="carol"><thread>t1</thread>],
    decoded into a message that holds an id and a body already. *)
Definition reused_message : @Message bool :=
  set_Body (set_Id (Message_zero false) "7") "old".

Definition reuse_start : StartElement :=
  mkStart (mkName "jabber:client" "message") [mkAttr (mkName "" "to") "carol"].

Definition reuse_children : list Node := [elem "jabber:client" "thread" [Text "t1"]].

(** * Properties *)

(** ** Well-formed input *)

(** Induction on a tree, with the property known of all children. *)
Fixpoint Node_forest_ind (P : Node → Prop)
    (Helem : ∀ s kids, Forall P kids → P (Element s kids))
    (Htext : ∀ c, P (Text c))
    (Hcomment : ∀ c, P (CommentNode c))
    (Hprocinst : ∀ t i, P (ProcInstNode t i))
    (Hdirective : ∀ c, P (DirectiveNode c))
    (n : Node) : P n :=
  match n with
  | Element s kids =>
      Helem s kids
        ((fix all (l : list Node) : Forall P l :=
            match l with
            | [] => List.Forall_nil P
            | k :: l' =>
                List.Forall_cons P k l'
                  (Node_forest_ind P Helem Htext Hcomment Hprocinst Hdirective k) (all l')
            end) kids)
  | Text c => Htext c
  | CommentNode c => Hcomment c
  | ProcInstNode t i => Hprocinst t i
  | DirectiveNode c => Hdirective c
  end.

Lemma forest_tokens_cons n ns :
  forest_tokens (n :: ns) = tokens_of n ++ forest_tokens ns.
Proof. reflexivity. Qed.

Lemma forest_tokens_app ns1 ns2 :
  forest_tokens (ns1 ++ ns2) = forest_tokens ns1 ++ forest_tokens ns2.
Proof. unfold forest_tokens. apply flat_map_app. Qed.

Lemma tokens_of_element s kids :
  tokens_of (Element s kids) = StartTok s :: forest_tokens kids ++ [EndTok (End s)].
Proof. reflexivity. Qed.

(** Splitting gives back the tokens it was given. *)
Lemma split_element_app depth ts elem rest :
  split_element depth ts = Some (elem, rest) → ts = elem ++ rest.
Proof.
  revert depth elem rest.
  induction ts as [|t ts IH]; intros depth elem rest H; [done|].
  destruct t; simpl in H;
    try (destruct (split_element depth ts) as [[e r]|] eqn:E; simplify_eq/=;
         by rewrite (IH _ _ _ E)).
  - destruct (split_element (S depth) ts) as [[e r]|] eqn:E; simplify_eq/=.
    by rewrite (IH _ _ _ E).
  - destruct depth as [|k]; [by simplify_eq/=|].
    destruct (split_element k ts) as [[e' r]|] eqn:E; simplify_eq/=.
    by rewrite (IH _ _ _ E).
Qed.

(** A whole tree in front of the tokens does not change where the
    current element ends. *)
Lemma split_element_node n :
  ∀ depth ts,
    split_element depth (tokens_of n ++ ts) =
    '(e, r) ← split_element depth ts; Some (tokens_of n ++ e, r).
Proof.
  induction n as [s kids IH| | | |] using Node_forest_ind; intros depth ts;
    try (simpl; by destruct (split_element depth ts) as [[? ?]|]).
  rewrite tokens_of_element. cbn [app split_element].
  assert (Hkids : ∀ d us,
    split_element d (forest_tokens kids ++ us) =
    '(e, r) ← split_element d us; Some (forest_tokens kids ++ e, r)).
  { induction IH as [|k kids Hk _ IHkids]; intros d us.
    - simpl. by destruct (split_element d us) as [[? ?]|].
    - rewrite forest_tokens_cons, <- app_assoc, Hk, IHkids.
      destruct (split_element d us) as [[e r]|]; simpl; [|done].
      by rewrite <- app_assoc. }
  rewrite <- app_assoc, Hkids. simpl.
  destruct (split_element depth ts) as [[e r]|]; simpl; [|done].
  by rewrite <- app_assoc.
Qed.

Lemma split_element_forest ns :
  ∀ depth ts,
    split_element depth (forest_tokens ns ++ ts) =
    '(e, r) ← split_element depth ts; Some (forest_tokens ns ++ e, r).
Proof.
  induction ns as [|n ns IH]; intros depth ts.
  - simpl. by destruct (split_element depth ts) as [[? ?]|].
  - rewrite forest_tokens_cons, <- app_assoc, split_element_node, IH.
    destruct (split_element depth ts) as [[e r]|]; simpl; [|done].
    by rewrite <- app_assoc.
Qed.

(** The content of an element, then its end tag: the element ends there. *)
Lemma split_element_content kids e rest :
  split_element 0 (forest_tokens kids ++ EndTok e :: rest) =
  Some (forest_tokens kids ++ [EndTok e], rest).
Proof. by rewrite split_element_forest. Qed.

(** Inside a nested element no character data counts. *)
Lemma chardata_node_nested n :
  ∀ depth ts, chardata (S depth) (tokens_of n ++ ts) = chardata (S depth) ts.
Proof.
  induction n as [s kids IH| | | |] using Node_forest_ind; intros depth ts;
    try done.
  rewrite tokens_of_element. cbn [app chardata]. rewrite <- app_assoc.
  revert depth. induction IH as [|k kids Hk _ IHkids]; intros depth; [done|].
  rewrite forest_tokens_cons, <- app_assoc, Hk. apply IHkids.
Qed.

(** The character data of an element is the text of its text children. *)
Lemma chardata_content kids e :
  chardata 0 (forest_tokens kids ++ [EndTok e]) = text_of kids.
Proof.
  induction kids as [|k kids IH]; [done|].
  rewrite forest_tokens_cons, <- app_assoc.
  destruct k; simpl; try done.
  - rewrite <- app_assoc. simpl.
    assert (H : ∀ ns ts, chardata 1 (forest_tokens ns ++ ts) = chardata 1 ts).
    { induction ns as [|n ns IHns]; intros ts; [done|].
      by rewrite forest_tokens_cons, <- app_assoc, chardata_node_nested. }
    by rewrite H.
  - by rewrite IH.
Qed.

(** ** The registry after [init] *)

Lemma msgTypeRegistry_eq :
  msgTypeRegistry =
  <[NSSpaceXEP0184Receipt :=
      <["request" := TReceiptRequest]> (<["received" := TReceiptReceived]> ∅)]>
  (<[NSSpaceXEP0333ChatMarkers :=
      <["markable" := TChatMarkerMarkable]> (<["received" := TChatMarkerReceived]>
      (<["displayed" := TChatMarkerDisplayed]>
      (<["acknowledged" := TChatMarkerAcknowledged]> ∅)))]> ∅).
Proof. vm_cast_no_check (@eq_refl _ msgTypeRegistry). Qed.

(** [init] registers each struct under the name of its own tag. *)
Lemma msgTypeRegistry_coherent : registry_coherent msgTypeRegistry.
Proof.
  intros [sp l] t. unfold registry_lookup. rewrite msgTypeRegistry_eq. simpl.
  rewrite !lookup_insert.
  repeat (case_decide; simplify_eq/=; rewrite ?lookup_insert, ?lookup_empty; simpl);
    repeat (case_decide; simplify_eq/=); try done.
  all: by intros [= <-].
Qed.

(** And every one of the six structs is registered. *)
Lemma msgTypeRegistry_complete t :
  registry_lookup msgTypeRegistry (XMLName_tag t) = Some t.
Proof. destruct t; vm_compute; reflexivity. Qed.

(** No registered name is a core child's, whatever the name space. *)
Lemma msgTypeRegistry_core n :
  Local n ∈ core_names → registry_lookup msgTypeRegistry n = None.
Proof.
  intros Hn. destruct (registry_lookup msgTypeRegistry n) as [t|] eqn:Ht; [|done].
  apply msgTypeRegistry_coherent in Ht as <-.
  unfold core_names in Hn. rewrite !elem_of_cons, elem_of_nil in Hn.
  destruct t; simpl in Hn; destruct Hn as [?|[?|[?|[?|[]]]]]; discriminate.
Qed.

Section Properties.

Context {Err : Type}.
Variable Err_zero : Err.
Variable Err_UnmarshalXML : Decoder → StartElement → Err → Err * outcome.
Variable Err_MarshalXML : Err → list Node.

Set Default Proof Using "Type".

(** ** The loop *)

(** [loop] is its first turn, then itself. *)
Lemma loop_turn reg start d (msg : Message) :
  loop Err_UnmarshalXML reg start d msg =
  match iteration Err_UnmarshalXML reg start d msg with
  | Return msg' o => (msg', o)
  | Continue msg' d' => loop Err_UnmarshalXML reg start d' msg'
  end.
Proof.
  rewrite loop_equation_1.
  assert (H : ∀ x : {t | iteration Err_UnmarshalXML reg start d msg = t},
    loop_unfold_clause_1 Err_UnmarshalXML reg start d msg x =
    match proj1_sig x with
    | Return msg' o => (msg', o)
    | Continue msg' d' => loop Err_UnmarshalXML reg start d' msg'
    end) by (intros [[msg' o|msg' d'] Heq]; reflexivity).
  apply H.
Qed.

(** One turn of the loop, the head of the pending tokens in view. *)
Ltac loop_step :=
  rewrite loop_turn; unfold iteration; rewrite ?tokens_of_element;
  cbn [Decoder_Token pending failure app].

Lemma loop_nil reg start fail (msg : Message) :
  loop Err_UnmarshalXML reg start (mkDecoder [] fail) msg = (msg, Failed fail).
Proof. by rewrite loop_turn. Qed.

Lemma loop_end reg start e ts fail (msg : Message) :
  loop Err_UnmarshalXML reg start (mkDecoder (EndTok e :: ts) fail) msg =
  if decide (e = End start) then (msg, Done (mkDecoder ts fail))
  else loop Err_UnmarshalXML reg start (mkDecoder ts fail) msg.
Proof.
  rewrite loop_turn. unfold iteration. simpl. by destruct (decide (e = End start)).
Qed.

(** Character data, comments, processing instructions and directives
    between the children are passed over. *)
Lemma loop_leaf reg start n ts fail (msg : Message) :
  (∀ s kids, n ≠ Element s kids) →
  loop Err_UnmarshalXML reg start (mkDecoder (tokens_of n ++ ts) fail) msg =
  loop Err_UnmarshalXML reg start (mkDecoder ts fail) msg.
Proof.
  intros Hn. destruct n as [s kids| | | |]; [by destruct (Hn s kids)|..];
    by rewrite loop_turn.
Qed.

Lemma reflect_TypeOf_New t : reflect_TypeOf (reflect_New t) = t.
Proof. by destruct t. Qed.

Lemma reflect_TypeOf_set_XMLName e n :
  reflect_TypeOf (ext_set_XMLName e n) = reflect_TypeOf e.
Proof. by destruct e. Qed.

Lemma reflect_TypeOf_set_attr e a :
  reflect_TypeOf (ext_set_attr e a) = reflect_TypeOf e.
Proof. unfold ext_set_attr. case_decide; by destruct e. Qed.

Lemma reflect_TypeOf_set_attrs attrs : ∀ e,
  reflect_TypeOf (fold_left ext_set_attr attrs e) = reflect_TypeOf e.
Proof.
  induction attrs as [|a attrs IH]; intros e; [done|].
  simpl. by rewrite IH, reflect_TypeOf_set_attr.
Qed.

Lemma ext_XMLName_set_attr e a : ext_XMLName (ext_set_attr e a) = ext_XMLName e.
Proof. unfold ext_set_attr. case_decide; by destruct e. Qed.

Lemma ext_XMLName_set_attrs attrs : ∀ e,
  ext_XMLName (fold_left ext_set_attr attrs e) = ext_XMLName e.
Proof.
  induction attrs as [|a attrs IH]; intros e; [done|].
  simpl. by rewrite IH, ext_XMLName_set_attr.
Qed.

Lemma ext_XMLName_set_XMLName e n : ext_XMLName (ext_set_XMLName e n) = n.
Proof. by destruct e. Qed.

Lemma reflect_TypeOf_instance t s : reflect_TypeOf (ext_struct (ext_instance t s)) = t.
Proof.
  unfold ext_instance. cbn [ext_struct].
  by rewrite reflect_TypeOf_set_attrs, reflect_TypeOf_set_XMLName, reflect_TypeOf_New.
Qed.

Lemma ext_XMLName_instance t s : ext_XMLName (ext_struct (ext_instance t s)) = SName s.
Proof.
  unfold ext_instance. cbn [ext_struct].
  by rewrite ext_XMLName_set_attrs, ext_XMLName_set_XMLName.
Qed.

(** What is stored is the pointer. *)
Lemma ext_instance_pointer t s : ext_instance t s = Pointer (ext_struct (ext_instance t s)).
Proof. reflexivity. Qed.

(** A struct takes the element that bears the name of its tag. *)
Lemma unmarshal_start_tag t s :
  XMLName_tag t = SName s →
  unmarshal_start (reflect_New t) s = ok (ext_struct (ext_instance t s)).
Proof.
  intros Htag. unfold unmarshal_start. rewrite reflect_TypeOf_New, Htag.
  rewrite decide_False by (intros [_ ?]; done).
  rewrite decide_False by (intros [_ ?]; done). done.
Qed.

(** Whatever a struct takes is the instance of its type for that start
    tag. *)
Lemma unmarshal_start_ok t s v :
  unmarshal_start (reflect_New t) s = ok v → v = ext_struct (ext_instance t s).
Proof.
  unfold unmarshal_start. repeat case_decide; intros; by simplify_eq.
Qed.

(** A registered element: one turn stores it and is past it. *)
Lemma loop_registered reg start s kids t rest fail (msg : Message) :
  registry_lookup reg (SName s) = Some t →
  XMLName_tag t = SName s →
  loop Err_UnmarshalXML reg start
    (mkDecoder (tokens_of (Element s kids) ++ rest) fail) msg =
  loop Err_UnmarshalXML reg start (mkDecoder rest fail)
    (set_Extensions msg (Extensions msg ++ [ext_instance t s])).
Proof.
  intros Hreg Htag. loop_step.
  rewrite Hreg. unfold DecodeElement_struct, Skip. cbn [pending failure].
  rewrite (unmarshal_start_tag _ _ Htag).
  rewrite <- app_assoc. cbn [app]. by rewrite split_element_content.
Qed.

(** A [body], [thread] or [subject] element: one turn stores its text. *)
Lemma loop_body reg start s kids rest fail (msg : Message) :
  registry_lookup reg (SName s) = None →
  Local (SName s) = "body" →
  loop Err_UnmarshalXML reg start
    (mkDecoder (tokens_of (Element s kids) ++ rest) fail) msg =
  loop Err_UnmarshalXML reg start (mkDecoder rest fail) (set_Body msg (text_of kids)).
Proof.
  intros Hreg Hname. loop_step.
  rewrite Hreg, Hname. cbn [decide]. unfold DecodeElement_string. cbn [pending failure].
  rewrite <- app_assoc. cbn [app].
  rewrite split_element_content, chardata_content.
  by repeat (case_decide; [|try done]).
Qed.

Lemma loop_thread reg start s kids rest fail (msg : Message) :
  registry_lookup reg (SName s) = None →
  Local (SName s) = "thread" →
  loop Err_UnmarshalXML reg start
    (mkDecoder (tokens_of (Element s kids) ++ rest) fail) msg =
  loop Err_UnmarshalXML reg start (mkDecoder rest fail) (set_Thread msg (text_of kids)).
Proof.
  intros Hreg Hname. loop_step.
  rewrite Hreg, Hname. cbn [decide]. unfold DecodeElement_string. cbn [pending failure].
  rewrite <- app_assoc. cbn [app].
  rewrite split_element_content, chardata_content.
  by repeat (case_decide; [|try done]).
Qed.

Lemma loop_subject reg start s kids rest fail (msg : Message) :
  registry_lookup reg (SName s) = None →
  Local (SName s) = "subject" →
  loop Err_UnmarshalXML reg start
    (mkDecoder (tokens_of (Element s kids) ++ rest) fail) msg =
  loop Err_UnmarshalXML reg start (mkDecoder rest fail) (set_Subject msg (text_of kids)).
Proof.
  intros Hreg Hname. loop_step.
  rewrite Hreg, Hname. cbn [decide]. unfold DecodeElement_string. cbn [pending failure].
  rewrite <- app_assoc. cbn [app].
  rewrite split_element_content, chardata_content.
  by repeat (case_decide; [|try done]).
Qed.

(** The start tag of an element that is neither registered nor named
    like a core child: the turn does nothing, and the next turn reads the
    first token inside the element. *)
Lemma loop_unknown_start reg start s ts fail (msg : Message) :
  registry_lookup reg (SName s) = None →
  Local (SName s) ∉ core_names →
  loop Err_UnmarshalXML reg start (mkDecoder (StartTok s :: ts) fail) msg =
  loop Err_UnmarshalXML reg start (mkDecoder ts fail) msg.
Proof.
  intros Hreg Hname. loop_step. rewrite Hreg.
  unfold core_names in Hname. rewrite !not_elem_of_cons in Hname.
  destruct Hname as (? & ? & ? & ? & _).
  by rewrite !decide_False by done.
Qed.

(** An element of no use is walked through, token by token, and leaves
    no trace. *)
Lemma loop_inert reg start n :
  inertb reg start n = true →
  ∀ rest fail (msg : Message),
    loop Err_UnmarshalXML reg start (mkDecoder (tokens_of n ++ rest) fail) msg =
    loop Err_UnmarshalXML reg start (mkDecoder rest fail) msg.
Proof.
  induction n as [s kids IH| | | |] using Node_forest_ind; intros Hn rest fail msg;
    try (by apply loop_leaf).
  simpl in Hn. rewrite !andb_true_iff, !bool_decide_eq_true in Hn.
  destruct Hn as [[[Hreg Hname] Hend] Hkids].
  rewrite tokens_of_element. cbn [app].
  rewrite (loop_unknown_start _ _ _ _ _ _ Hreg Hname), <- app_assoc. cbn [app].
  assert (Hwalk : ∀ ts,
    loop Err_UnmarshalXML reg start (mkDecoder (forest_tokens kids ++ ts) fail) msg =
    loop Err_UnmarshalXML reg start (mkDecoder ts fail) msg).
  { clear Hreg Hname Hend.
    induction IH as [|k kids Hk _ IHkids]; intros ts; [done|].
    simpl in Hkids. apply andb_true_iff in Hkids as [Hk' Hkids].
    rewrite forest_tokens_cons, <- app_assoc, (Hk Hk'). by apply IHkids. }
  rewrite Hwalk, loop_end. by rewrite decide_False.
Qed.

Lemma loop_inert_forest reg start ns :
  forallb (inertb reg start) ns = true →
  ∀ rest fail (msg : Message),
    loop Err_UnmarshalXML reg start (mkDecoder (forest_tokens ns ++ rest) fail) msg =
    loop Err_UnmarshalXML reg start (mkDecoder rest fail) msg.
Proof.
  induction ns as [|n ns IH]; intros Hns rest fail msg; [done|].
  simpl in Hns. apply andb_true_iff in Hns as [Hn Hns].
  rewrite forest_tokens_cons, <- app_assoc, (loop_inert _ _ _ Hn). by apply IH.
Qed.

(** One turn takes a plain child whole. *)
Lemma loop_plain_child reg start n rest fail (msg : Message) :
  registry_coherent reg →
  plain_child reg start n = true →
  loop Err_UnmarshalXML reg start (mkDecoder (tokens_of n ++ rest) fail) msg =
  loop Err_UnmarshalXML reg start (mkDecoder rest fail) (child_effect reg n msg).
Proof.
  intros Hreg Hn. destruct n as [s kids| | | |]; try (by apply loop_leaf).
  unfold plain_child in Hn. unfold child_effect.
  destruct (registry_lookup reg (SName s)) as [t|] eqn:Hs.
  { apply loop_registered; [done|]. by apply Hreg. }
  rewrite !orb_true_iff, !bool_decide_eq_true in Hn.
  destruct Hn as [[Hn|Hn]|Hn]; [by destruct Hn| |].
  - repeat case_decide; [by apply loop_body|by apply loop_thread|by apply loop_subject|].
    rewrite !elem_of_cons, elem_of_nil in Hn. by destruct Hn as [?|[?|[?|[]]]].
  - pose proof Hn as Hn'. simpl in Hn'.
    rewrite !andb_true_iff, !bool_decide_eq_true in Hn'.
    destruct Hn' as [[[_ Hname] _] _]. unfold core_names in Hname.
    rewrite !not_elem_of_cons in Hname. destruct Hname as (? & ? & ? & _).
    rewrite !decide_False by done. by apply loop_inert.
Qed.

(** So a run of plain children is taken child by child. *)
Lemma loop_plain_children reg start kids :
  registry_coherent reg →
  forallb (plain_child reg start) kids = true →
  ∀ rest fail (msg : Message),
    loop Err_UnmarshalXML reg start (mkDecoder (forest_tokens kids ++ rest) fail) msg =
    loop Err_UnmarshalXML reg start (mkDecoder rest fail) (children_effect reg kids msg).
Proof.
  intros Hreg. induction kids as [|k kids IH]; intros Hkids rest fail msg; [done|].
  simpl in Hkids. apply andb_true_iff in Hkids as [Hk Hkids].
  rewrite forest_tokens_cons, <- app_assoc, (loop_plain_child _ _ _ _ _ _ Hreg Hk).
  by rewrite IH.
Qed.

(** A stanza of plain children is decoded child by child, and the
    decoder is left right after the stanza's end tag. *)
Lemma UnmarshalXML_plain_children reg start kids rest fail (msg : Message) :
  registry_coherent reg →
  forallb (plain_child reg start) kids = true →
  Message_UnmarshalXML Err_UnmarshalXML reg
    (mkDecoder (forest_tokens kids ++ EndTok (End start) :: rest) fail) start msg =
  (children_effect reg kids
     (fold_left extract_attr (SAttr start) (set_XMLName msg (SName start))),
   Done (mkDecoder rest fail)).
Proof.
  intros Hreg Hkids. unfold Message_UnmarshalXML.
  rewrite (loop_plain_children _ _ _ Hreg Hkids), loop_end.
  by rewrite decide_True.
Qed.

(** ** What the loop never touches *)

(** A property of the message that every turn keeps holds when the loop
    is left, however it is left. *)
Lemma loop_preserves (P : Message → Prop) reg start :
  (∀ d msg, P msg → P (turn_msg (iteration Err_UnmarshalXML reg start d msg))) →
  ∀ d msg, P msg → P (fst (loop Err_UnmarshalXML reg start d msg)).
Proof.
  intros Hturn d. remember (length (pending d)) as n eqn:Hn. revert d Hn.
  induction n as [n IH] using lt_wf_ind. intros d -> msg Hmsg.
  rewrite loop_turn. specialize (Hturn d msg Hmsg).
  destruct (iteration Err_UnmarshalXML reg start d msg) as [msg' o|msg' d'] eqn:Hit;
    [done|].
  eapply IH; [|done..]. by eapply iteration_shorter.
Qed.

(** A turn leaves the name, the attributes and the out-of-band field as
    they are, and adds to the extensions at most one value, of a
    registered type and named as registered. *)
Lemma iteration_frame reg start d (msg : Message) :
  let msg' := turn_msg (iteration Err_UnmarshalXML reg start d msg) in
  XMLName msg' = XMLName msg ∧ Attrs msg' = Attrs msg ∧ X msg' = X msg ∧
  ∃ new, Extensions msg' = Extensions msg ++ new ∧
         Forall (registered_instance reg) new.
Proof.
  unfold iteration, Decoder_Token, DecodeElement_struct, DecodeElement_string.
  repeat case_match; simplify_eq/=;
    try (repeat split; try done; exists []; by rewrite app_nil_r).
  repeat split; try done. eexists [_]; split; [done|].
  apply Forall_singleton. unfold registered_instance.
  match goal with
  | H : unmarshal_start _ _ = ok _ |- _ => apply unmarshal_start_ok in H as ->
  end.
  split; [done|]. cbn [ext_struct].
  by rewrite ext_XMLName_instance, reflect_TypeOf_instance.
Qed.

Lemma loop_frame reg start d (msg : Message) :
  let msg' := fst (loop Err_UnmarshalXML reg start d msg) in
  XMLName msg' = XMLName msg ∧ Attrs msg' = Attrs msg ∧ X msg' = X msg ∧
  ∃ new, Extensions msg' = Extensions msg ++ new ∧
         Forall (registered_instance reg) new.
Proof.
  apply (loop_preserves (λ m,
    XMLName m = XMLName msg ∧ Attrs m = Attrs msg ∧ X m = X msg ∧
    ∃ new, Extensions m = Extensions msg ++ new ∧
           Forall (registered_instance reg) new)).
  - intros d0 m (Hn & Ha & Hx & new & He & Hnew).
    destruct (iteration_frame reg start d0 m) as (Hn' & Ha' & Hx' & new' & He' & Hnew').
    repeat split; try congruence.
    exists (new ++ new'). split; [by rewrite He', He, app_assoc|].
    by apply Forall_app.
  - repeat split; try done. exists []. by rewrite app_nil_r.
Qed.

(** ** Where the loop stops *)

(** A turn that goes round again has moved the decoder forward. *)
Lemma iteration_suffix reg start d (msg msg' : Message) d' :
  iteration Err_UnmarshalXML reg start d msg = Continue msg' d' →
  failure d' = failure d ∧ ∃ pre, pending d = pre ++ pending d'.
Proof.
  unfold iteration, Decoder_Token, DecodeElement_struct, DecodeElement_string,
    Skip, unmarshalInterface.
  intros H. repeat case_match; simplify_eq/=; (split; [done|]);
    try (by eexists [_]);
    match goal with
    | E : split_element _ _ = Some _ |- _ =>
        apply split_element_app in E as ->; by eexists (_ :: _)
    end.
Qed.

(** The loop returns nil only on reading an end tag with the stanza's
    name, and leaves the decoder right after it. *)
Lemma loop_Done reg start d (msg msg' : Message) d' :
  loop Err_UnmarshalXML reg start d msg = (msg', Done d') →
  failure d' = failure d ∧ ∃ pre, pending d = pre ++ EndTok (End start) :: pending d'.
Proof.
  remember (length (pending d)) as n eqn:Hn. revert d msg Hn.
  induction n as [n IH] using lt_wf_ind. intros d msg -> Hloop.
  rewrite loop_turn in Hloop.
  destruct (iteration Err_UnmarshalXML reg start d msg) as [m o|m d1] eqn:Hit.
  - simplify_eq. revert Hit.
    unfold iteration, Decoder_Token, DecodeElement_struct, DecodeElement_string,
      Skip, unmarshalInterface.
    intros H. repeat case_match; simplify_eq/=. split; [done|]. by exists [].
  - destruct (iteration_suffix _ _ _ _ _ _ Hit) as [Hf [pre Hpre]].
    destruct (IH (length (pending d1)) (iteration_shorter _ _ _ _ _ _ _ Hit)
                d1 m eq_refl Hloop) as [Hf' [pre' Hpre']].
    split; [congruence|]. exists (pre ++ pre').
    by rewrite Hpre, Hpre', app_assoc.
Qed.

(** ** Any well-formed stanza *)

(** An [error] element that [Err.UnmarshalXML] reads to its end: one
    turn stores what the method made of it. *)
Lemma loop_error reg start s kids rest fail (msg : Message) v fail' :
  registry_lookup reg (SName s) = None →
  Local (SName s) = "error" →
  Err_UnmarshalXML (mkDecoder (forest_tokens kids ++ [EndTok (End s)]) EOF) s (Error msg)
    = (v, Done (mkDecoder [] fail')) →
  loop Err_UnmarshalXML reg start
    (mkDecoder (tokens_of (Element s kids) ++ rest) fail) msg =
  loop Err_UnmarshalXML reg start (mkDecoder rest fail) (set_Error msg v).
Proof.
  intros Hreg Hname Herr. loop_step. rewrite Hreg, Hname.
  rewrite !decide_False by done. rewrite decide_True by done.
  unfold unmarshalInterface. cbn [pending failure].
  rewrite <- app_assoc. cbn [app]. rewrite split_element_content, Herr. done.
Qed.

(** On a well-formed stanza the loop never fails: from a whole tree it
    either goes on behind the tree, or has returned nil inside it, at the
    end tag of an element named like the stanza. *)
Lemma loop_node_safe reg start n :
  registry_coherent reg →
  Err_total Err_UnmarshalXML →
  ∀ rest fail (msg : Message),
    (∃ msg', loop Err_UnmarshalXML reg start (mkDecoder (tokens_of n ++ rest) fail) msg =
             loop Err_UnmarshalXML reg start (mkDecoder rest fail) msg') ∨
    (namesake_free start n = false ∧
     ∃ msg' d', loop Err_UnmarshalXML reg start (mkDecoder (tokens_of n ++ rest) fail) msg =
                (msg', Done d')).
Proof.
  intros Hreg Herr.
  induction n as [s kids IH| | | |] using Node_forest_ind; intros rest fail msg;
    try (left; exists msg; by apply loop_leaf).
  destruct (registry_lookup reg (SName s)) as [t|] eqn:Hs.
  { left. eexists. apply loop_registered; [done|]. by apply Hreg. }
  destruct (decide (Local (SName s) = "body")) as [Hb|Hb].
  { left. eexists. by apply loop_body. }
  destruct (decide (Local (SName s) = "thread")) as [Ht|Ht].
  { left. eexists. by apply loop_thread. }
  destruct (decide (Local (SName s) = "subject")) as [Hj|Hj].
  { left. eexists. by apply loop_subject. }
  destruct (decide (Local (SName s) = "error")) as [He|He].
  { destruct (Herr (forest_tokens kids ++ [EndTok (End s)]) s (Error msg))
      as (v & fail' & Hv).
    { apply (split_element_content kids (End s) []). }
    left. eexists. by eapply loop_error. }
  rewrite tokens_of_element. cbn [app].
  rewrite loop_unknown_start, <- app_assoc; [|done|].
  2:{ unfold core_names. rewrite !not_elem_of_cons. repeat split; try done.
      apply not_elem_of_nil. }
  cbn [app namesake_free].
  assert (Hwalk : ∀ ts m,
    (∃ msg', loop Err_UnmarshalXML reg start (mkDecoder (forest_tokens kids ++ ts) fail) m =
             loop Err_UnmarshalXML reg start (mkDecoder ts fail) msg') ∨
    (forallb (namesake_free start) kids = false ∧
     ∃ msg' d', loop Err_UnmarshalXML reg start (mkDecoder (forest_tokens kids ++ ts) fail) m =
                (msg', Done d'))).
  { induction IH as [|k kids Hk _ IHkids]; intros ts m; [left; by exists m|].
    rewrite forest_tokens_cons, <- app_assoc. cbn [forallb].
    destruct (Hk (forest_tokens kids ++ ts) fail m) as [[m1 H1]|[Hfree H1]].
    - rewrite H1. destruct (IHkids ts m1) as [H2|[Hfree H2]]; [by left|].
      right. split; [|done]. rewrite Hfree. apply andb_false_r.
    - right. split; [|done]. by rewrite Hfree. }
  destruct (Hwalk (EndTok (End s) :: rest) msg) as [[m1 H1]|[Hfree H1]].
  - rewrite H1, loop_end. case_decide as Hend; [right|left; eauto].
    split; [|eauto]. rewrite bool_decide_eq_false_2; [done|]. by intros [].
  - right. split; [|done]. rewrite Hfree. apply andb_false_r.
Qed.

Lemma loop_forest_safe reg start ns :
  registry_coherent reg →
  Err_total Err_UnmarshalXML →
  ∀ rest fail (msg : Message),
    (∃ msg', loop Err_UnmarshalXML reg start (mkDecoder (forest_tokens ns ++ rest) fail) msg =
             loop Err_UnmarshalXML reg start (mkDecoder rest fail) msg') ∨
    (forallb (namesake_free start) ns = false ∧
     ∃ msg' d', loop Err_UnmarshalXML reg start (mkDecoder (forest_tokens ns ++ rest) fail) msg =
                (msg', Done d')).
Proof.
  intros Hreg Herr. induction ns as [|n ns IH]; intros rest fail msg; [left; by exists msg|].
  rewrite forest_tokens_cons, <- app_assoc. cbn [forallb].
  destruct (loop_node_safe reg start n Hreg Herr (forest_tokens ns ++ rest) fail msg)
    as [[m1 H1]|[Hfree H1]].
  - rewrite H1. destruct (IH rest fail m1) as [H2|[Hfree H2]]; [by left|].
    right. split; [|done]. rewrite Hfree. apply andb_false_r.
  - right. split; [|done]. by rewrite Hfree.
Qed.

(** So [UnmarshalXML] returns nil on every well-formed stanza; and where
    no element inside the stanza is named like it, it has then read
    exactly the stanza: the decoder is left right after the stanza's own
    end tag, and [decode] returns nil too. *)
Lemma UnmarshalXML_well_formed reg start kids rest fail (msg : Message) :
  registry_coherent reg →
  Err_total Err_UnmarshalXML →
  ∃ msg' d',
    Message_UnmarshalXML Err_UnmarshalXML reg
      (mkDecoder (forest_tokens kids ++ EndTok (End start) :: rest) fail) start msg =
    (msg', Done d') ∧
    (forallb (namesake_free start) kids = true → d' = mkDecoder rest fail).
Proof.
  intros Hreg Herr. unfold Message_UnmarshalXML.
  set (m0 := fold_left extract_attr (SAttr start) (set_XMLName msg (SName start))).
  destruct (loop_forest_safe reg start kids Hreg Herr (EndTok (End start) :: rest) fail m0)
    as [[m1 H1]|[Hfree (m1 & d1 & H1)]].
  - rewrite H1, loop_end, decide_True by done. by exists m1, (mkDecoder rest fail).
  - exists m1, d1. split; [done|]. by rewrite Hfree.
Qed.

Lemma decode_well_formed reg se kids rest fail :
  registry_coherent reg →
  Err_total Err_UnmarshalXML →
  forallb (namesake_free se) kids = true →
  ∃ packet,
    decode Err_zero Err_UnmarshalXML reg
      (mkDecoder (forest_tokens kids ++ EndTok (End se) :: rest) fail) se =
    (packet, Done (mkDecoder rest fail)).
Proof.
  intros Hreg Herr Hfree. unfold decode, unmarshalInterface. cbn [pending failure].
  rewrite split_element_content.
  destruct (UnmarshalXML_well_formed reg se kids [] EOF (Message_zero Err_zero) Hreg Herr)
    as (packet & d' & -> & Hd').
  rewrite (Hd' Hfree). by exists packet.
Qed.

(** ** Attributes *)

Lemma attr_field_id a : attr_field "id" a = Id a.
Proof. reflexivity. Qed.

Lemma attr_field_type a : attr_field "type" a = Type_ a.
Proof. reflexivity. Qed.

Lemma attr_field_to a : attr_field "to" a = To a.
Proof. reflexivity. Qed.

Lemma attr_field_from a : attr_field "from" a = From a.
Proof. reflexivity. Qed.

Lemma attr_field_lang a : attr_field "lang" a = Lang a.
Proof. reflexivity. Qed.

(** An attribute only ever touches the attribute fields. *)
Lemma extract_attr_Attrs (msg : @Message Err) a :
  extract_attr msg a = set_Attrs msg (Attrs (extract_attr msg a)).
Proof. unfold extract_attr. destruct msg. by repeat case_decide. Qed.

Lemma extract_attrs_Attrs attrs : ∀ msg : @Message Err,
  fold_left extract_attr attrs msg =
  set_Attrs msg (Attrs (fold_left extract_attr attrs msg)).
Proof.
  induction attrs as [|a attrs IH]; intros msg; [by destruct msg|].
  simpl. rewrite IH at 1. by rewrite extract_attr_Attrs at 1.
Qed.

(** The field named [l] takes the attribute's value exactly when the
    attribute's local name is [l]; the name space plays no part. *)
Lemma extract_attr_field l (msg : @Message Err) a :
  l ∈ attr_names →
  attr_field l (Attrs (extract_attr msg a)) =
  if decide (Local (AName a) = l) then Value a else attr_field l (Attrs msg).
Proof.
  unfold attr_names. rewrite !elem_of_cons, elem_of_nil.
  intros [->|[->|[->|[->|[->|[]]]]]]; unfold extract_attr;
    repeat case_decide; simplify_eq; done.
Qed.

Lemma extract_attrs_other l attrs : ∀ msg : @Message Err,
  l ∈ attr_names →
  Forall (λ a, Local (AName a) ≠ l) attrs →
  attr_field l (Attrs (fold_left extract_attr attrs msg)) = attr_field l (Attrs msg).
Proof.
  induction attrs as [|a attrs IH]; intros msg Hl Hattrs; [done|].
  apply Forall_cons in Hattrs as [Ha Hattrs]. simpl.
  rewrite IH, extract_attr_field by done. by rewrite decide_False.
Qed.

(** An attribute with any other local name changes nothing. *)
Lemma extract_attr_unrecognized (msg : @Message Err) a :
  Local (AName a) ∉ attr_names → extract_attr msg a = msg.
Proof.
  unfold attr_names. rewrite !not_elem_of_cons. intros (? & ? & ? & ? & ? & _).
  unfold extract_attr. by rewrite !decide_False.
Qed.


(** The loop looks at the start tag only to know the end tag. *)
Lemma loop_start_End reg s1 s2 :
  End s1 = End s2 →
  ∀ d (msg : @Message Err),
    loop Err_UnmarshalXML reg s1 d msg = loop Err_UnmarshalXML reg s2 d msg.
Proof.
  intros Hend d. remember (length (pending d)) as n eqn:Hn. revert d Hn.
  induction n as [n IH] using lt_wf_ind. intros d -> msg.
  rewrite !(loop_turn reg _ d msg).
  assert (Hit : iteration Err_UnmarshalXML reg s1 d msg =
                iteration Err_UnmarshalXML reg s2 d msg)
    by (unfold iteration; by rewrite Hend).
  rewrite <- Hit.
  destruct (iteration Err_UnmarshalXML reg s1 d msg) as [m o|m d1] eqn:Hit1; [done|].
  eapply IH; [|done]. by eapply iteration_shorter.
Qed.

(** Setting the name first or last makes no difference to the attributes. *)
Lemma extract_attr_set_XMLName (msg : @Message Err) n a :
  extract_attr (set_XMLName msg n) a = set_XMLName (extract_attr msg a) n.
Proof. unfold extract_attr. by repeat case_decide. Qed.

Lemma extract_attrs_set_XMLName attrs : ∀ (msg : @Message Err) n,
  fold_left extract_attr attrs (set_XMLName msg n) =
  set_XMLName (fold_left extract_attr attrs msg) n.
Proof.
  induction attrs as [|a attrs IH]; intros msg n; [done|].
  simpl. by rewrite extract_attr_set_XMLName, IH.
Qed.

Lemma UnmarshalXML_Attrs reg d start (msg : @Message Err) :
  Attrs (fst (Message_UnmarshalXML Err_UnmarshalXML reg d start msg)) =
  Attrs (fold_left extract_attr (SAttr start) msg).
Proof.
  unfold Message_UnmarshalXML.
  destruct (loop_frame reg start d
              (fold_left extract_attr (SAttr start) (set_XMLName msg (SName start))))
    as (_ & -> & _).
  by rewrite extract_attrs_set_XMLName.
Qed.

(** C10: attributes are matched by their local name alone. Whatever its
    name space [sp], an attribute whose local name [l] is one of id, type,
    to, from, lang sets the field of that name, and of several attributes
    with that local name the last one in the list gives the field its
    final value. *)
Theorem attribute_matched_by_local_name reg d name pre sp l v post (msg : @Message Err) :
  l ∈ attr_names →
  Forall (λ a, Local (AName a) ≠ l) post →
  attr_field l
    (Attrs (fst (Message_UnmarshalXML Err_UnmarshalXML reg d
                   (mkStart name (pre ++ mkAttr (mkName sp l) v :: post)) msg))) = v.
Proof.
  intros Hl Hpost. rewrite UnmarshalXML_Attrs. cbn [SAttr].
  rewrite fold_left_app. cbn [fold_left].
  rewrite extract_attrs_other, extract_attr_field by done.
  by rewrite decide_True.
Qed.


(** ** Children, in order *)

Lemma children_effect_app reg ks1 ks2 (msg : @Message Err) :
  children_effect reg (ks1 ++ ks2) msg =
  children_effect reg ks2 (children_effect reg ks1 msg).
Proof. unfold children_effect. apply fold_left_app. Qed.

Lemma children_effect_cons reg k ks (msg : @Message Err) :
  children_effect reg (k :: ks) msg = children_effect reg ks (child_effect reg k msg).
Proof. reflexivity. Qed.

(** The children add their extension values at the end, in their order. *)
Lemma children_effect_Extensions reg kids : ∀ msg : @Message Err,
  Extensions (children_effect reg kids msg) = Extensions msg ++ ext_children reg kids.
Proof.
  induction kids as [|k kids IH]; intros msg; [by rewrite app_nil_r|].
  rewrite children_effect_cons, IH. unfold ext_children at 2. cbn [omap list_omap].
  fold (ext_children reg kids).
  destruct k as [s ks| | | |]; try done.
  unfold child_effect. destruct (registry_lookup reg (SName s)) as [t|]; simpl.
  - by rewrite <- app_assoc.
  - by repeat case_decide.
Qed.

(** Children that are no [body] leave the body as it is. *)
Lemma children_effect_Body reg kids : ∀ msg : @Message Err,
  forallb (λ k, negb (is_body reg k)) kids = true →
  Body (children_effect reg kids msg) = Body msg.
Proof.
  induction kids as [|k kids IH]; intros msg Hkids; [done|].
  simpl in Hkids. apply andb_true_iff in Hkids as [Hk Hkids].
  rewrite children_effect_cons, IH by done.
  destruct k as [s ks| | | |]; try done.
  unfold child_effect. unfold is_body in Hk.
  destruct (registry_lookup reg (SName s)) as [t|]; [done|].
  rewrite bool_decide_eq_true_2 in Hk by done. simpl in Hk.
  apply negb_true_iff, bool_decide_eq_false in Hk.
  rewrite decide_False by done. by repeat case_decide.
Qed.

Lemma extract_attrs_Extensions attrs (msg : @Message Err) n :
  Extensions (fold_left extract_attr attrs (set_XMLName msg n)) = Extensions msg.
Proof. by rewrite extract_attrs_Attrs. Qed.

(** X14: among plain children, the registered ones are appended to
    [Extensions] in document order. For a stanza whose children are all
    plain (registered elements, [body], [thread] and [subject] elements,
    text, and elements with no registered, core or stanza name inside),
    decoding ends without error right after the stanza, and [Extensions]
    is what it was followed by the values of the registered children in
    the order they stand in. *)
Theorem extensions_in_document_order reg start kids rest fail (msg : @Message Err) :
  registry_coherent reg →
  forallb (plain_child reg start) kids = true →
  ∃ msg',
    Message_UnmarshalXML Err_UnmarshalXML reg
      (mkDecoder (forest_tokens kids ++ EndTok (End start) :: rest) fail) start msg =
    (msg', Done (mkDecoder rest fail)) ∧
    Extensions msg' = Extensions msg ++ ext_children reg kids.
Proof.
  intros Hreg Hkids. eexists. split; [by apply UnmarshalXML_plain_children|].
  by rewrite children_effect_Extensions, extract_attrs_Extensions.
Qed.

(** X15: among plain children, the last [body] wins. For a stanza whose
    children are all plain and in which a [body] element is followed by no
    other [body], decoding ends without error and [Body] is the text of
    that element, whatever bodies came before it. *)
Theorem last_body_wins reg start pre s kids post rest fail (msg : @Message Err) :
  registry_coherent reg →
  forallb (plain_child reg start) (pre ++ post) = true →
  is_body reg (Element s kids) = true →
  forallb (λ k, negb (is_body reg k)) post = true →
  ∃ msg',
    Message_UnmarshalXML Err_UnmarshalXML reg
      (mkDecoder (forest_tokens (pre ++ Element s kids :: post) ++
                  EndTok (End start) :: rest) fail) start msg =
    (msg', Done (mkDecoder rest fail)) ∧
    Body msg' = text_of kids.
Proof.
  intros Hreg Hplain Hbody Hpost.
  rewrite forallb_app in Hplain. apply andb_true_iff in Hplain as [Hpre Hpost'].
  pose proof Hbody as Hbody'. unfold is_body in Hbody'.
  apply andb_true_iff in Hbody' as [Hs Hl]. apply bool_decide_eq_true in Hs, Hl.
  eexists. split.
  - apply UnmarshalXML_plain_children; [done|].
    rewrite forallb_app. apply andb_true_iff. split; [done|].
    cbn [forallb]. apply andb_true_iff. split; [|done].
    unfold plain_child. rewrite !orb_true_iff, !bool_decide_eq_true.
    left; right. rewrite Hl. apply list_elem_of_here.
  - rewrite children_effect_app, children_effect_cons, children_effect_Body by done.
    unfold child_effect. rewrite Hs. by rewrite decide_True.
Qed.

(** X16: the registry is keyed on the name space as well as the local
    name. With [X] registered under [(nsA, l)] and [Y] under [(nsB, l)], a
    child tagged [(nsA, l)] among plain children is stored as one value
    [v], a pointer to a struct of type [X], at its place in [Extensions];
    the struct is not of type [Y]. *)
Theorem registry_isolation reg start nsA nsB l X Y attrs kids pre post rest fail
    (msg : @Message Err) :
  registry_coherent reg →
  registry_lookup reg (mkName nsA l) = Some X →
  registry_lookup reg (mkName nsB l) = Some Y →
  nsA ≠ nsB →
  forallb (plain_child reg start) (pre ++ post) = true →
  ∃ msg' v,
    Message_UnmarshalXML Err_UnmarshalXML reg
      (mkDecoder (forest_tokens (pre ++ Element (mkStart (mkName nsA l) attrs) kids :: post)
                  ++ EndTok (End start) :: rest) fail) start msg =
    (msg', Done (mkDecoder rest fail)) ∧
    Extensions msg' =
      Extensions msg ++ ext_children reg pre ++ v :: ext_children reg post ∧
    v = Pointer (ext_struct v) ∧
    reflect_TypeOf (ext_struct v) = X ∧ ext_XMLName (ext_struct v) = mkName nsA l ∧
    reflect_TypeOf (ext_struct v) ≠ Y.
Proof.
  intros Hreg HX HY Hns Hplain.
  rewrite forallb_app in Hplain. apply andb_true_iff in Hplain as [Hpre Hpost].
  exists (children_effect reg (pre ++ Element (mkStart (mkName nsA l) attrs) kids :: post)
            (fold_left extract_attr (SAttr start) (set_XMLName msg (SName start)))).
  exists (ext_instance X (mkStart (mkName nsA l) attrs)).
  split; [|split; [|split; [|split; [|split]]]].
  - apply UnmarshalXML_plain_children; [done|].
    rewrite forallb_app. apply andb_true_iff. split; [done|].
    cbn [forallb]. apply andb_true_iff. split; [|done].
    unfold plain_child. cbn [SName]. rewrite HX.
    by rewrite bool_decide_eq_true_2.
  - rewrite children_effect_Extensions, extract_attrs_Extensions. f_equal.
    unfold ext_children. rewrite omap_app. cbn [omap list_omap SName]. by rewrite HX.
  - apply ext_instance_pointer.
  - apply reflect_TypeOf_instance.
  - apply ext_XMLName_instance.
  - rewrite reflect_TypeOf_instance. intros ->.
    apply Hreg in HX, HY. rewrite HX in HY. by simplify_eq.
Qed.

(** ** Unregistered children *)

(** X17: [UnmarshalXML] returns nil on every well-formed stanza, whatever
    children it has (given a registry that holds each struct under its own
    tag, and an [Err] method that does not fail), and an element whose
    name is not registered leaves no value: the values added to
    [Extensions] are pointers to structs of registered types under the
    names they are registered under. Where no element inside the stanza
    is named like the stanza, the decoder is left right after the stanza
    and [decode] returns nil as well. *)
Theorem unregistered_children_dropped reg start kids rest fail (msg : @Message Err) :
  registry_coherent reg →
  Err_total Err_UnmarshalXML →
  ∃ msg' d' new,
    Message_UnmarshalXML Err_UnmarshalXML reg
      (mkDecoder (forest_tokens kids ++ EndTok (End start) :: rest) fail) start msg =
    (msg', Done d') ∧
    Extensions msg' = Extensions msg ++ new ∧
    Forall (registered_instance reg) new ∧
    (∀ s ks, Element s ks ∈ kids → registry_lookup reg (SName s) = None →
             Forall (λ v, ext_XMLName (ext_struct v) ≠ SName s) new) ∧
    (forallb (namesake_free start) kids = true →
     d' = mkDecoder rest fail ∧
     ∃ packet,
       decode Err_zero Err_UnmarshalXML reg
         (mkDecoder (forest_tokens kids ++ EndTok (End start) :: rest) fail) start =
       (packet, Done (mkDecoder rest fail))).
Proof.
  intros Hreg Herr.
  destruct (UnmarshalXML_well_formed reg start kids rest fail msg Hreg Herr)
    as (msg' & d' & Hdec & Hd').
  pose proof (loop_frame reg start
    (mkDecoder (forest_tokens kids ++ EndTok (End start) :: rest) fail)
    (fold_left extract_attr (SAttr start) (set_XMLName msg (SName start))))
    as (_ & _ & _ & new & Hext & Hnew).
  unfold Message_UnmarshalXML in Hdec. rewrite Hdec in Hext. cbn [fst] in Hext.
  rewrite extract_attrs_Extensions in Hext.
  exists msg', d', new. repeat split; try done.
  - intros s ks _ Hs. eapply Forall_impl; [exact Hnew|].
    intros v [_ Hv] Heq. rewrite Heq in Hv. congruence.
  - by apply Hd'.
  - by apply decode_well_formed.
Qed.

(** ** Input that ends too early *)

(** [UnmarshalXML] returns nil only after reading an end tag with the
    stanza's name. *)
Lemma UnmarshalXML_needs_end_tag reg d start (msg : @Message Err) :
  EndTok (End start) ∉ pending d →
  ∃ e, snd (Message_UnmarshalXML Err_UnmarshalXML reg d start msg) = Failed e.
Proof.
  intros Hend. unfold Message_UnmarshalXML.
  destruct (loop Err_UnmarshalXML reg start d _) as [m [d'|e]] eqn:Hloop; [|by exists e].
  apply loop_Done in Hloop as [_ [pre Hpre]]. rewrite Hpre in Hend.
  exfalso. apply Hend. apply elem_of_app. right. apply list_elem_of_here.
Qed.

(** C4, as the code has it: when the tokens run out before the stanza's
    subtree is complete (the input ends early, or the tokenizer fails on
    the way), [decode] returns a non-nil error. The packet it returns
    with the error is not cleared: it is the message as [UnmarshalXML]
    left it. [UnmarshalXML] itself fails whenever no end tag with the
    stanza's name is left to read. *)
Theorem decode_fails_on_incomplete_stanza reg p se :
  split_element 0 (pending p) = None →
  (∃ e, decode Err_zero Err_UnmarshalXML reg p se =
        (fst (Message_UnmarshalXML Err_UnmarshalXML reg p se (Message_zero Err_zero)),
         Failed e)) ∧
  (EndTok (End se) ∉ pending p →
   ∃ e, decode Err_zero Err_UnmarshalXML reg p se =
        (fst (Message_UnmarshalXML Err_UnmarshalXML reg p se (Message_zero Err_zero)),
         Failed e) ∧
        snd (Message_UnmarshalXML Err_UnmarshalXML reg p se (Message_zero Err_zero)) =
        Failed e).
Proof.
  intros Hsplit. unfold decode, unmarshalInterface. rewrite Hsplit. split.
  - destruct (Message_UnmarshalXML _ _ _ _ _) as [m [d'|e]]; eauto.
  - intros Hend.
    destruct (UnmarshalXML_needs_end_tag reg p se (Message_zero Err_zero) Hend) as [e He].
    destruct (Message_UnmarshalXML _ _ _ _ _) as [m [d'|e']]; simplify_eq/=. eauto.
Qed.

(** ** Writing, then reading back *)

Lemma append_empty_r (v : string) : v +:+ "" = v.
Proof.
  induction v as [|c v IH]; [done|].
  change (String c (v +:+ "") = String c v). by rewrite IH.
Qed.

Lemma text_of_text_nodes c : text_of (text_nodes c) = c.
Proof. unfold text_nodes. case_decide; [done|]. apply append_empty_r. Qed.




(** The attributes written for [a] are read back as [a] is written. *)
Lemma extract_attrs_written (msg : @Message Err) a :
  Attrs msg = {| Id := ""; From := ""; To := ""; Type_ := ""; Lang := "" |} →
  fold_left extract_attr (PacketAttrs_attrs a) msg = set_Attrs msg (written_attrs a).
Proof.
  destruct msg as [n a0 sub bod thr err exts x]. cbn [Attrs]. intros ->.
  destruct a as [i f t ty la].
  unfold PacketAttrs_attrs, attr_omitempty, written_attrs. cbn [Id From To Type_ Lang].
  repeat case_decide; subst; rewrite ?written_equation_1; reflexivity.
Qed.

(** A string field that was written is read back as it is written; one
    that was left out stays as it is. *)
Lemma loop_written_subject reg start v rest fail (msg : @Message Err) :
  registry_lookup reg (mkName "" "subject") = None →
  loop Err_UnmarshalXML reg start
    (mkDecoder (forest_tokens (string_omitempty "subject" v) ++ rest) fail) msg =
  loop Err_UnmarshalXML reg start (mkDecoder rest fail)
    (if decide (v = "") then msg else set_Subject msg (written v)).
Proof.
  intros Hreg. unfold string_omitempty. case_decide; [done|].
  rewrite forest_tokens_cons. cbn [forest_tokens flat_map]. rewrite app_nil_r.
  rewrite loop_subject by done. by rewrite text_of_text_nodes.
Qed.

Lemma loop_written_body reg start v rest fail (msg : @Message Err) :
  registry_lookup reg (mkName "" "body") = None →
  loop Err_UnmarshalXML reg start
    (mkDecoder (forest_tokens (string_omitempty "body" v) ++ rest) fail) msg =
  loop Err_UnmarshalXML reg start (mkDecoder rest fail)
    (if decide (v = "") then msg else set_Body msg (written v)).
Proof.
  intros Hreg. unfold string_omitempty. case_decide; [done|].
  rewrite forest_tokens_cons. cbn [forest_tokens flat_map]. rewrite app_nil_r.
  rewrite loop_body by done. by rewrite text_of_text_nodes.
Qed.

Lemma loop_written_thread reg start v rest fail (msg : @Message Err) :
  registry_lookup reg (mkName "" "thread") = None →
  loop Err_UnmarshalXML reg start
    (mkDecoder (forest_tokens (string_omitempty "thread" v) ++ rest) fail) msg =
  loop Err_UnmarshalXML reg start (mkDecoder rest fail)
    (if decide (v = "") then msg else set_Thread msg (written v)).
Proof.
  intros Hreg. unfold string_omitempty. case_decide; [done|].
  rewrite forest_tokens_cons. cbn [forest_tokens flat_map]. rewrite app_nil_r.
  rewrite loop_thread by done. by rewrite text_of_text_nodes.
Qed.

(** An extension value is written under the name of its tag, whatever
    name it bears, and read back as [retag] has it. *)
Lemma ext_instance_retag v :
  ext_instance (reflect_TypeOf (ext_struct v))
    (mkStart (XMLName_tag (reflect_TypeOf (ext_struct v)))
       (xmlns_attr (Space (XMLName_tag (reflect_TypeOf (ext_struct v)))) ++
        ext_attrs (ext_struct v))) = retag v.
Proof. by destruct v as [[]|[]]. Qed.

Lemma set_Extensions_same (msg : @Message Err) :
  set_Extensions msg (Extensions msg) = msg.
Proof. by destruct msg. Qed.

Lemma loop_written_retag start exts : ∀ rest fail (msg : @Message Err),
  loop Err_UnmarshalXML msgTypeRegistry start
    (mkDecoder (forest_tokens (map MsgExtension_node exts) ++ rest) fail) msg =
  loop Err_UnmarshalXML msgTypeRegistry start (mkDecoder rest fail)
    (set_Extensions msg (Extensions msg ++ map retag exts)).
Proof.
  induction exts as [|e exts IH]; intros rest fail msg.
  - cbn [map]. by rewrite app_nil_r, set_Extensions_same.
  - cbn [map]. rewrite forest_tokens_cons, <- app_assoc. unfold MsgExtension_node at 1.
    cbv zeta.
    rewrite (loop_registered _ _ _ _ (reflect_TypeOf (ext_struct e)))
      by (try apply msgTypeRegistry_complete; done).
    rewrite IH, ext_instance_retag.
    cbn [Extensions set_Extensions]. by rewrite <- app_assoc.
Qed.

(** The error payload, written and read back. *)
Lemma loop_written_error start e rest fail (msg : @Message Err) :
  Error msg = Err_zero →
  Err_reads_back Err_zero Err_UnmarshalXML Err_MarshalXML msgTypeRegistry e →
  loop Err_UnmarshalXML msgTypeRegistry start
    (mkDecoder (forest_tokens (Err_MarshalXML e) ++ rest) fail) msg =
  loop Err_UnmarshalXML msgTypeRegistry start (mkDecoder rest fail) (set_Error msg e).
Proof.
  intros Hzero [[-> ->]|(s & kids & fail' & -> & Hreg & Hname & Hread)].
  - rewrite <- Hzero. by destruct msg.
  - rewrite forest_tokens_cons. cbn [forest_tokens flat_map]. rewrite app_nil_r.
    eapply loop_error; [done..|]. by rewrite Hzero.
Qed.

(** A message without out-of-band data, written and read back. *)
Lemma reparse_reparsed (msg : @Message Err) :
  X msg = None →
  Err_reads_back Err_zero Err_UnmarshalXML Err_MarshalXML msgTypeRegistry (Error msg) →
  reparse Err_zero Err_UnmarshalXML Err_MarshalXML msgTypeRegistry msg =
  Some (reparsed msg, Done (mkDecoder [] EOF)).
Proof.
  intros HX Herr.
  unfold reparse, XMPPFormat. rewrite tokens_of_element. f_equal.
  unfold decode, unmarshalInterface. cbn [pending failure].
  rewrite split_element_content.
  assert (Hdec :
    Message_UnmarshalXML Err_UnmarshalXML msgTypeRegistry
      (mkDecoder (forest_tokens (Message_children Err_MarshalXML msg) ++
                  [EndTok (End (mkStart (mkName "" "message") (PacketAttrs_attrs (Attrs msg))))])
         EOF)
      (mkStart (mkName "" "message") (PacketAttrs_attrs (Attrs msg)))
      (Message_zero Err_zero) = (reparsed msg, Done (mkDecoder [] EOF))); [|by rewrite Hdec].
  unfold Message_UnmarshalXML, Message_children. cbn [SAttr SName].
  rewrite extract_attrs_written by done.
  rewrite !forest_tokens_app, <- !app_assoc.
  rewrite loop_written_subject
    by (apply msgTypeRegistry_core; do 2 apply list_elem_of_further; apply list_elem_of_here).
  rewrite loop_written_body
    by (apply msgTypeRegistry_core; apply list_elem_of_here).
  rewrite loop_written_thread
    by (apply msgTypeRegistry_core; apply list_elem_of_further; apply list_elem_of_here).
  rewrite loop_written_error; [|by repeat case_decide|done].
  rewrite loop_written_retag.
  rewrite HX. cbn [forest_tokens flat_map app]. rewrite loop_end, decide_True by done.
  f_equal. unfold reparsed. destruct msg as [n a sub bod thr err exts x]. simpl in *. subst.
  repeat case_decide; subst; rewrite ?written_equation_1; reflexivity.
Qed.

Lemma retag_faithful v : faithful v → retag v = v.
Proof.
  intros (e & -> & Hemb & Hname & Hid). unfold retag. cbn [ext_struct].
  destruct e as [v n|v n i|v n|v n i|v n i|v n i]; cbn in Hemb, Hname, Hid; subst;
    try done; by rewrite (Hid i eq_refl).
Qed.

(** C1, as the code has it: a message is reproduced by decoding what
    [XMPPFormat] wrote when its name is the one the encoder writes
    ([message], no name space), its out-of-band field is absent, its
    strings hold only what XML can carry (so that they are written as they
    are), its extensions are pointers to registered structs that bear the
    names of their tags, have nothing embedded and ids that are written
    as they are, and its error payload is one the [Err] methods write and
    read back. Empty strings are reproduced too: they are left out and
    read as empty. *)
Theorem reparse_reproduces (msg : @Message Err) :
  XMLName msg = mkName "" "message" →
  X msg = None →
  Forall verbatim
    [Id (Attrs msg); From (Attrs msg); To (Attrs msg); Type_ (Attrs msg); Lang (Attrs msg);
     Subject msg; Body msg; Thread msg] →
  Forall faithful (Extensions msg) →
  Err_reads_back Err_zero Err_UnmarshalXML Err_MarshalXML msgTypeRegistry (Error msg) →
  reparse Err_zero Err_UnmarshalXML Err_MarshalXML msgTypeRegistry msg =
  Some (msg, Done (mkDecoder [] EOF)).
Proof.
  intros Hname HX Hstr Hexts Herr. rewrite reparse_reparsed by done.
  do 2 f_equal. unfold reparsed, written_attrs.
  destruct msg as [n [i f t ty la] sub bod thr err exts x]. simpl in *. subst.
  rewrite !Forall_cons in Hstr.
  destruct Hstr as (-> & -> & -> & -> & -> & -> & -> & -> & _).
  f_equal. clear -Hexts. induction Hexts as [|v exts Hv _ IH]; [done|].
  cbn [map]. by rewrite (retag_faithful v Hv), IH.
Qed.

(** ** The out-of-band field *)

(** No call of [UnmarshalXML] assigns [X]. *)
Lemma UnmarshalXML_keeps_X reg d start (msg : @Message Err) :
  X (fst (Message_UnmarshalXML Err_UnmarshalXML reg d start msg)) = X msg.
Proof.
  unfold Message_UnmarshalXML.
  destruct (loop_frame reg start d
              (fold_left extract_attr (SAttr start) (set_XMLName msg (SName start))))
    as (_ & _ & -> & _).
  by rewrite extract_attrs_Attrs.
Qed.

End Properties.

(** * The claims and properties on sample stanzas *)

(** The stand-in reads every complete element to its end. *)
Lemma flag_total : Err_total flag_UnmarshalXML.
Proof.
  intros elem s e Hsplit. unfold flag_UnmarshalXML, Skip. cbn [pending failure].
  rewrite Hsplit. by exists true, EOF.
Qed.

(** C10 on a start tag with two [id] attributes, the second in a name
    space of its own: it is the one that counts. *)
Lemma attribute_matched_by_local_name_witness :
  attr_field "id"
    (Attrs (fst (Message_UnmarshalXML flag_UnmarshalXML msgTypeRegistry truncated
       (mkStart (mkName "jabber:client" "message")
          ([mkAttr (mkName "" "id") "1"] ++
           mkAttr (mkName "urn:example" "id") "2" :: [mkAttr (mkName "" "to") "bob"]))
       (Message_zero false)))) = "2".
Proof.
  apply (attribute_matched_by_local_name flag_UnmarshalXML).
  - apply list_elem_of_here.
  - repeat constructor. discriminate.
Defined.


(** X16 on the registry of [init]: "received" is registered under the
    receipts name space and under the chat markers name space; a
    [received] child in the receipts name space is stored as a pointer
    to a [ReceiptReceived]. *)
Lemma registry_isolation_witness :
  ∃ msg' v,
    Message_UnmarshalXML flag_UnmarshalXML msgTypeRegistry
      (mkDecoder
         (forest_tokens
            ([first_body] ++
             Element (mkStart (mkName "urn:xmpp:receipts" "received")
                        [mkAttr (mkName "" "id") "m1"]) [] :: []) ++
          EndTok (End message_start) :: next_stanza) EOF)
      message_start (Message_zero false) =
    (msg', Done (mkDecoder next_stanza EOF)) ∧
    Extensions msg' =
      [] ++ ext_children msgTypeRegistry [first_body] ++
      v :: ext_children msgTypeRegistry [] ∧
    v = Pointer (ext_struct v) ∧
    reflect_TypeOf (ext_struct v) = TReceiptReceived ∧
    ext_XMLName (ext_struct v) = mkName "urn:xmpp:receipts" "received" ∧
    reflect_TypeOf (ext_struct v) ≠ TChatMarkerReceived.
Proof.
  apply (registry_isolation flag_UnmarshalXML msgTypeRegistry message_start
           "urn:xmpp:receipts" "urn:xmpp:chat-markers:0" "received"
           TReceiptReceived TChatMarkerReceived).
  - apply msgTypeRegistry_coherent.
  - vm_compute. reflexivity.
  - vm_compute. reflexivity.
  - discriminate.
  - vm_compute. reflexivity.
Defined.

(** X14 on three registered children: they are stored in their order. *)
Lemma extensions_in_document_order_witness :
  ∃ msg',
    Message_UnmarshalXML flag_UnmarshalXML msgTypeRegistry
      (mkDecoder (forest_tokens three_extensions ++
                  EndTok (End message_start) :: next_stanza) EOF)
      message_start (Message_zero false) =
    (msg', Done (mkDecoder next_stanza EOF)) ∧
    Extensions msg' =
      [Pointer (ReceiptRequest None (mkName "urn:xmpp:receipts" "request"));
       Pointer (ChatMarkerMarkable None (mkName "urn:xmpp:chat-markers:0" "markable"));
       Pointer (ChatMarkerReceived None (mkName "urn:xmpp:chat-markers:0" "received") "m1")].
Proof.
  destruct (extensions_in_document_order flag_UnmarshalXML msgTypeRegistry message_start
              three_extensions next_stanza EOF (Message_zero false)
              msgTypeRegistry_coherent) as [msg' [Hdec Hext]].
  - vm_compute. reflexivity.
  - exists msg'. split; [exact Hdec|]. rewrite Hext. vm_compute. reflexivity.
Defined.

(** X15 on two bodies, "first" then "second". *)
Lemma last_body_wins_witness :
  ∃ msg',
    Message_UnmarshalXML flag_UnmarshalXML msgTypeRegistry
      (mkDecoder (forest_tokens ([first_body] ++ Element second_body [Text "second"] :: []) ++
                  EndTok (End message_start) :: next_stanza) EOF)
      message_start (Message_zero false) =
    (msg', Done (mkDecoder next_stanza EOF)) ∧
    Body msg' = text_of [Text "second"].
Proof.
  apply (last_body_wins flag_UnmarshalXML msgTypeRegistry message_start [first_body]
           second_body [Text "second"] [] next_stanza EOF (Message_zero false)).
  - apply msgTypeRegistry_coherent.
  - vm_compute. reflexivity.
  - vm_compute. reflexivity.
  - reflexivity.
Defined.

(** X17 on a stanza with a child nobody registered. *)
Lemma unregistered_children_dropped_witness :
  ∃ msg' d' new,
    Message_UnmarshalXML flag_UnmarshalXML msgTypeRegistry
      (mkDecoder (forest_tokens unknown_children ++
                  EndTok (End message_start) :: next_stanza) EOF)
      message_start (Message_zero false) =
    (msg', Done d') ∧
    Extensions msg' = Extensions (Message_zero false) ++ new ∧
    Forall (registered_instance msgTypeRegistry) new ∧
    (∀ s ks, Element s ks ∈ unknown_children →
             registry_lookup msgTypeRegistry (SName s) = None →
             Forall (λ v, ext_XMLName (ext_struct v) ≠ SName s) new) ∧
    (forallb (namesake_free message_start) unknown_children = true →
     d' = mkDecoder next_stanza EOF ∧
     ∃ packet,
       decode false flag_UnmarshalXML msgTypeRegistry
         (mkDecoder (forest_tokens unknown_children ++
                     EndTok (End message_start) :: next_stanza) EOF) message_start =
       (packet, Done (mkDecoder next_stanza EOF))).
Proof.
  apply (unregistered_children_dropped false flag_UnmarshalXML msgTypeRegistry
           message_start unknown_children next_stanza EOF (Message_zero false)).
  - apply msgTypeRegistry_coherent.
  - apply flag_total.
Defined.

(** C4 on the stanza cut off after its body. *)
Lemma decode_fails_on_incomplete_stanza_witness :
  split_element 0 (pending truncated) = None ∧
  (∃ e, decode false flag_UnmarshalXML msgTypeRegistry truncated message_start =
        (fst (Message_UnmarshalXML flag_UnmarshalXML msgTypeRegistry truncated
                message_start (Message_zero false)),
         Failed e)).
Proof.
  split; [reflexivity|].
  apply (decode_fails_on_incomplete_stanza false flag_UnmarshalXML msgTypeRegistry
           truncated message_start).
  reflexivity.
Defined.

(** C4, as the claim has it, fails on the same input: [decode] returns
    the error, and with it a packet that holds the name, the id and the
    body read before the input ended, not an empty one. *)
Lemma decode_returns_partial_packet :
  decode false flag_UnmarshalXML msgTypeRegistry truncated message_start =
  ({| XMLName := mkName "jabber:client" "message";
      Attrs := {| Id := "1"; From := ""; To := ""; Type_ := ""; Lang := "" |};
      Subject := ""; Body := "hi"; Thread := "";
      Error := false; Extensions := []; X := None |},
   Failed SyntaxError) ∧
  fst (decode false flag_UnmarshalXML msgTypeRegistry truncated message_start) ≠
  Message_zero false.
Proof.
  split; [vm_compute; reflexivity|].
  vm_compute. discriminate.
Qed.

(** C1 on a message with every string set, two extensions and an error. *)
Lemma reparse_reproduces_witness :
  reparse false flag_UnmarshalXML flag_MarshalXML msgTypeRegistry full_message =
  Some (full_message, Done (mkDecoder [] EOF)).
Proof.
  apply (reparse_reproduces false flag_UnmarshalXML flag_MarshalXML full_message).
  - reflexivity.
  - reflexivity.
  - repeat constructor; vm_compute; reflexivity.
  - repeat constructor.
    + eexists. repeat split. intros i [=].
    + eexists. repeat split. intros i [= <-]. vm_compute. reflexivity.
  - right. exists (mkStart (mkName "" "error") []), [], EOF.
    repeat split; vm_compute; reflexivity.
Defined.

(** C1, as the claim has it, fails. A message that carries out-of-band
    data comes back without it; a message whose name has a name space (as
    every message decoded from a [jabber:client] stream has) comes back
    without the name space; an extension built without its [XMLName]
    comes back with it; an extension stored as a struct comes back as a
    pointer to the struct; an extension whose embedded interface holds
    something comes back with nil there; a body that holds a control
    character comes back with U+FFFD in its place. All their strings are
    set, and their extensions are registered. *)
Lemma reparse_loses_fields :
  (reparse false flag_UnmarshalXML flag_MarshalXML msgTypeRegistry oob_message =
     Some (set_X oob_message None, Done (mkDecoder [] EOF)) ∧
   set_X oob_message None ≠ oob_message) ∧
  (reparse false flag_UnmarshalXML flag_MarshalXML msgTypeRegistry client_message =
     Some (set_XMLName client_message (mkName "" "message"), Done (mkDecoder [] EOF)) ∧
   set_XMLName client_message (mkName "" "message") ≠ client_message) ∧
  (reparse false flag_UnmarshalXML flag_MarshalXML msgTypeRegistry sender_message =
     Some (set_Extensions sender_message
             [Pointer (ReceiptRequest None (mkName "urn:xmpp:receipts" "request"))],
           Done (mkDecoder [] EOF)) ∧
   set_Extensions sender_message
     [Pointer (ReceiptRequest None (mkName "urn:xmpp:receipts" "request"))] ≠
   sender_message) ∧
  (reparse false flag_UnmarshalXML flag_MarshalXML msgTypeRegistry value_message =
     Some (set_Extensions value_message
             [Pointer (ReceiptRequest None (mkName "urn:xmpp:receipts" "request"))],
           Done (mkDecoder [] EOF)) ∧
   set_Extensions value_message
     [Pointer (ReceiptRequest None (mkName "urn:xmpp:receipts" "request"))] ≠
   value_message) ∧
  (reparse false flag_UnmarshalXML flag_MarshalXML msgTypeRegistry embedding_message =
     Some (set_Extensions embedding_message
             [Pointer (ReceiptRequest None (mkName "urn:xmpp:receipts" "request"))],
           Done (mkDecoder [] EOF)) ∧
   set_Extensions embedding_message
     [Pointer (ReceiptRequest None (mkName "urn:xmpp:receipts" "request"))] ≠
   embedding_message) ∧
  (reparse false flag_UnmarshalXML flag_MarshalXML msgTypeRegistry control_message =
     Some (set_Body control_message replaced_body, Done (mkDecoder [] EOF)) ∧
   set_Body control_message replaced_body ≠ control_message).
Proof.
  repeat split; try (vm_compute; reflexivity); vm_compute; discriminate.
Qed.

(** C2 fails on a forwarded message. [UnmarshalXML] does not skip the
    [forwarded] element it has no use for: it reads on inside it, takes the
    inner body for the stanza's own, and returns at the inner message's
    end tag. The [forwarded] end tag, the outer body and the stanza's own
    end tag are left on the stream in front of the next stanza. *)
Lemma UnmarshalXML_stops_inside_child :
  Message_UnmarshalXML flag_UnmarshalXML msgTypeRegistry
    (mkDecoder (forest_tokens forwarded_children ++
                EndTok (End message_start) :: next_stanza) EOF)
    message_start (Message_zero false) =
  ({| XMLName := mkName "jabber:client" "message";
      Attrs := {| Id := "1"; From := ""; To := ""; Type_ := ""; Lang := "" |};
      Subject := ""; Body := "inner"; Thread := "";
      Error := false; Extensions := []; X := None |},
   Done (mkDecoder
           (EndTok (mkEnd (mkName "urn:xmpp:forward:0" "forwarded")) ::
            tokens_of (elem "jabber:client" "body" [Text "outer"]) ++
            EndTok (End message_start) :: next_stanza) EOF)).
Proof. vm_compute. reflexivity. Qed.

(** C3 fails on a stanza that carries out-of-band data: the [x] element
    is walked through like any element the loop has no use for, and [X]
    stays nil. *)
Lemma UnmarshalXML_drops_oob :
  Message_UnmarshalXML flag_UnmarshalXML msgTypeRegistry
    (mkDecoder (forest_tokens oob_children ++
                EndTok (End message_start) :: next_stanza) EOF)
    message_start (Message_zero false) =
  ({| XMLName := mkName "jabber:client" "message";
      Attrs := {| Id := "1"; From := ""; To := ""; Type_ := ""; Lang := "" |};
      Subject := ""; Body := "see"; Thread := "";
      Error := false; Extensions := []; X := None |},
   Done (mkDecoder next_stanza EOF)).
Proof. vm_compute. reflexivity. Qed.

(** C5 fails on the forwarded message. The [forwarded] child is not
    registered, and the stanza does not decode: [UnmarshalXML] returns nil
    at the end tag of the inner message, short of the end of the element
    [DecodeElement] handed it, [DecodeElement] refuses that, and [decode]
    returns the error, with the packet as [UnmarshalXML] left it. *)
Lemma decode_fails_on_unregistered_child :
  registry_lookup msgTypeRegistry (mkName "urn:xmpp:forward:0" "forwarded") = None ∧
  decode false flag_UnmarshalXML msgTypeRegistry
    (mkDecoder (forest_tokens forwarded_children ++
                EndTok (End message_start) :: next_stanza) EOF)
    message_start =
  ({| XMLName := mkName "jabber:client" "message";
      Attrs := {| Id := "1"; From := ""; To := ""; Type_ := ""; Lang := "" |};
      Subject := ""; Body := "inner"; Thread := "";
      Error := false; Extensions := []; X := None |},
   Failed NotConsumed).
Proof. split; vm_compute; reflexivity. Qed.

(** C7 fails on a stanza with bodies "first" and "second" and the
    XHTML-IM rendering of the message. [UnmarshalXML] does not skip the
    [html] element it has no use for: it reads on inside it and decodes
    the XHTML [body] into [Body], whose own character data is empty. The
    call returns nil, with neither "second" nor "first" in [Body]. *)
Lemma UnmarshalXML_takes_nested_body :
  Message_UnmarshalXML flag_UnmarshalXML msgTypeRegistry
    (mkDecoder (forest_tokens xhtml_children ++
                EndTok (End message_start) :: next_stanza) EOF)
    message_start (Message_zero false) =
  ({| XMLName := mkName "jabber:client" "message";
      Attrs := {| Id := "1"; From := ""; To := ""; Type_ := ""; Lang := "" |};
      Subject := ""; Body := ""; Thread := "";
      Error := false; Extensions := []; X := None |},
   Done (mkDecoder next_stanza EOF)).
Proof. vm_compute. reflexivity. Qed.

(** C8 fails on a receipt that stands behind a forwarded message.
    "received" is registered under the receipts and the chat markers name
    spaces, and the stanza has a child tagged with the first; but
    [UnmarshalXML] returns at the end tag of the forwarded message, before
    it comes to the child, and appends nothing: [Extensions] is empty, and
    the child is left on the stream. *)
Lemma UnmarshalXML_stops_before_extension :
  registry_lookup msgTypeRegistry (mkName "urn:xmpp:receipts" "received") =
    Some TReceiptReceived ∧
  registry_lookup msgTypeRegistry (mkName "urn:xmpp:chat-markers:0" "received") =
    Some TChatMarkerReceived ∧
  Message_UnmarshalXML flag_UnmarshalXML msgTypeRegistry
    (mkDecoder (forest_tokens receipt_behind_forwarded ++
                EndTok (End message_start) :: next_stanza) EOF)
    message_start (Message_zero false) =
  ({| XMLName := mkName "jabber:client" "message";
      Attrs := {| Id := "1"; From := ""; To := ""; Type_ := ""; Lang := "" |};
      Subject := ""; Body := ""; Thread := "";
      Error := false; Extensions := []; X := None |},
   Done (mkDecoder
           (EndTok (mkEnd (mkName "urn:xmpp:forward:0" "forwarded")) ::
            tokens_of (Element (mkStart (mkName "urn:xmpp:receipts" "received")
                                  [mkAttr (mkName "" "id") "m1"]) []) ++
            EndTok (End message_start) :: next_stanza) EOF)).
Proof. repeat split; vm_compute; reflexivity. Qed.

(** C9 fails on a stanza whose registered children are the three
    extensions, followed by an unregistered element that holds a receipt
    request. [UnmarshalXML] reads on inside the element it has no use
    for and appends the request it finds there: [Extensions] has four
    values, not the three children. *)
Lemma UnmarshalXML_lifts_nested_extension :
  Message_UnmarshalXML flag_UnmarshalXML msgTypeRegistry
    (mkDecoder (forest_tokens wrapped_request ++
                EndTok (End message_start) :: next_stanza) EOF)
    message_start (Message_zero false) =
  ({| XMLName := mkName "jabber:client" "message";
      Attrs := {| Id := "1"; From := ""; To := ""; Type_ := ""; Lang := "" |};
      Subject := ""; Body := ""; Thread := "";
      Error := false;
      Extensions :=
        [Pointer (ReceiptRequest None (mkName "urn:xmpp:receipts" "request"));
         Pointer (ChatMarkerMarkable None (mkName "urn:xmpp:chat-markers:0" "markable"));
         Pointer (ChatMarkerReceived None (mkName "urn:xmpp:chat-markers:0" "received")
                    "m1");
         Pointer (ReceiptRequest None (mkName "urn:xmpp:receipts" "request"))];
      X := None |},
   Done (mkDecoder next_stanza EOF)).
Proof. vm_compute. reflexivity. Qed.

(** * Further properties of the decoder and the encoder *)

Section Further.

Context {Err : Type}.
Variable Err_zero : Err.
Variable Err_UnmarshalXML : Decoder → StartElement → Err → Err * outcome.
Variable Err_MarshalXML : Err → list Node.

Set Default Proof Using "Type".

(** ** Invariants of the loop *)

(** A property of the decoder and the message that every turn keeps
    gives a property of the way the loop is left. *)
Lemma loop_invariant (P : Decoder → @Message Err → Prop)
    (Q : @Message Err → outcome → Prop) reg start :
  (∀ d msg, P d msg →
     match iteration Err_UnmarshalXML reg start d msg with
     | Return msg' o => Q msg' o
     | Continue msg' d' => P d' msg'
     end) →
  ∀ d msg, P d msg →
    Q (fst (loop Err_UnmarshalXML reg start d msg))
      (snd (loop Err_UnmarshalXML reg start d msg)).
Proof.
  intros Hturn d. remember (length (pending d)) as n eqn:Hn. revert d Hn.
  induction n as [n IH] using lt_wf_ind. intros d -> msg Hmsg.
  rewrite loop_turn. specialize (Hturn d msg Hmsg).
  destruct (iteration Err_UnmarshalXML reg start d msg) as [msg' o|msg' d'] eqn:Hit;
    [done|].
  eapply IH; [|done..]. by eapply iteration_shorter.
Qed.

(** The tokens still pending after a turn were pending before it. *)
Lemma iteration_pending reg start d (msg msg' : @Message Err) d' t :
  iteration Err_UnmarshalXML reg start d msg = Continue msg' d' →
  t ∈ pending d' → t ∈ pending d.
Proof.
  intros Hit Ht. apply iteration_suffix in Hit as [_ [pre ->]].
  apply elem_of_app. by right.
Qed.

(** The attribute loop leaves everything but the attributes alone. *)
Lemma UnmarshalXML_start (msg : @Message Err) start :
  fold_left extract_attr (SAttr start) (set_XMLName msg (SName start)) =
  set_Attrs (set_XMLName msg (SName start))
    (Attrs (fold_left extract_attr (SAttr start) msg)).
Proof.
  rewrite extract_attrs_Attrs. by rewrite extract_attrs_set_XMLName.
Qed.

(** ** The name and the attributes *)

(** X1: the name and the attribute fields of the message are settled by
    the start tag alone. Whatever tokens follow, whatever the registry
    holds and however the call ends, the message bears the name of the
    start tag, and its attribute fields are the same as for any other
    decoder and registry. *)
Theorem UnmarshalXML_header_from_start_tag reg reg' d d' start (msg : @Message Err) :
  XMLName (fst (Message_UnmarshalXML Err_UnmarshalXML reg d start msg)) = SName start ∧
  Attrs (fst (Message_UnmarshalXML Err_UnmarshalXML reg d start msg)) =
  Attrs (fst (Message_UnmarshalXML Err_UnmarshalXML reg' d' start msg)).
Proof.
  split.
  - unfold Message_UnmarshalXML.
    destruct (loop_frame Err_UnmarshalXML reg start d
                (fold_left extract_attr (SAttr start) (set_XMLName msg (SName start))))
      as (-> & _).
    by rewrite extract_attrs_set_XMLName.
  - by rewrite !UnmarshalXML_Attrs.
Qed.

(** The packet [decode] returns is the one [UnmarshalXML] leaves, from the
    zero message. *)
Lemma decode_packet reg p se :
  ∃ d, fst (decode Err_zero Err_UnmarshalXML reg p se) =
       fst (Message_UnmarshalXML Err_UnmarshalXML reg d se (Message_zero Err_zero)).
Proof.
  unfold decode, unmarshalInterface.
  destruct (split_element 0 (pending p)) as [[elem rest]|].
  - exists (mkDecoder elem EOF).
    destruct (Message_UnmarshalXML _ _ _ _ _) as [m [d'|e]]; [|done].
    by destruct (pending d').
  - exists p. by destruct (Message_UnmarshalXML _ _ _ _ _) as [m [d'|e]].
Qed.

(** X2: an attribute that is not on the start tag leaves its field as it
    was. [UnmarshalXML] does not reset the message it is called on: for
    each of id, type, to, from and lang, when no attribute of the start tag
    has that local name the field keeps the value it had; and in the
    packet [decode] returns, which starts out empty, the field is empty. *)
Theorem absent_attribute_keeps_field reg d start l (msg : @Message Err) :
  l ∈ attr_names →
  Forall (λ a, Local (AName a) ≠ l) (SAttr start) →
  attr_field l (Attrs (fst (Message_UnmarshalXML Err_UnmarshalXML reg d start msg))) =
    attr_field l (Attrs msg) ∧
  attr_field l (Attrs (fst (decode Err_zero Err_UnmarshalXML reg d start))) = "".
Proof.
  intros Hl Hattrs. split.
  - rewrite UnmarshalXML_Attrs. by apply extract_attrs_other.
  - destruct (decode_packet reg d start) as [d0 ->].
    rewrite UnmarshalXML_Attrs, extract_attrs_other by done.
    unfold attr_names in Hl. rewrite !elem_of_cons, elem_of_nil in Hl.
    by destruct Hl as [->|[->|[->|[->|[->|[]]]]]].
Qed.

(** The five attribute fields make up [PacketAttrs]. *)
Lemma PacketAttrs_fields a b :
  (∀ l, l ∈ attr_names → attr_field l a = attr_field l b) → a = b.
Proof.
  intros H. destruct a as [i f t ty la], b as [i' f' t' ty' la'].
  pose proof (H "id" ltac:(apply list_elem_of_here)) as Hid.
  pose proof (H "type" ltac:(do 1 apply list_elem_of_further; apply list_elem_of_here)) as Hty.
  pose proof (H "to" ltac:(do 2 apply list_elem_of_further; apply list_elem_of_here)) as Hto.
  pose proof (H "from" ltac:(do 3 apply list_elem_of_further; apply list_elem_of_here)) as Hfr.
  pose proof (H "lang" ltac:(do 4 apply list_elem_of_further; apply list_elem_of_here)) as Hla.
  cbv in Hid, Hty, Hto, Hfr, Hla. congruence.
Qed.

Lemma set_Attrs_set_Attrs (msg : @Message Err) a b :
  set_Attrs (set_Attrs msg a) b = set_Attrs msg b.
Proof. reflexivity. Qed.

(** Attributes with different local names can be read in either order. *)
Lemma extract_attr_comm (msg : @Message Err) a b :
  Local (AName a) ≠ Local (AName b) →
  extract_attr (extract_attr msg a) b = extract_attr (extract_attr msg b) a.
Proof.
  intros Hab.
  rewrite (extract_attr_Attrs (extract_attr msg a) b), (extract_attr_Attrs msg a).
  rewrite (extract_attr_Attrs (extract_attr msg b) a), (extract_attr_Attrs msg b).
  rewrite !set_Attrs_set_Attrs. f_equal. apply PacketAttrs_fields. intros l Hl.
  rewrite <- !extract_attr_Attrs. rewrite !extract_attr_field by done.
  repeat case_decide; congruence.
Qed.

Lemma recognised_cons a attrs :
  recognised (a :: attrs) =
  if decide (Local (AName a) ∈ attr_names) then Local (AName a) :: recognised attrs
  else recognised attrs.
Proof. unfold recognised. rewrite filter_cons. by case_decide. Qed.

Lemma recognised_Permutation attrs attrs' :
  attrs ≡ₚ attrs' → recognised attrs ≡ₚ recognised attrs'.
Proof. intros H. unfold recognised. by rewrite H. Qed.

Lemma extract_attrs_Permutation attrs attrs' :
  attrs ≡ₚ attrs' →
  NoDup (recognised attrs) →
  ∀ msg : @Message Err,
    fold_left extract_attr attrs msg = fold_left extract_attr attrs' msg.
Proof.
  induction 1 as [|a l l' Hperm IH|a b l|l l' l'' Hperm IH Hperm' IH']; intros Hnd msg.
  - done.
  - simpl. apply IH. rewrite recognised_cons in Hnd.
    case_decide; [by apply NoDup_cons in Hnd as [_ ?]|done].
  - simpl. f_equal. rewrite !recognised_cons in Hnd.
    destruct (decide (Local (AName a) ∈ attr_names)) as [Ha|Ha];
      [|by rewrite !(extract_attr_unrecognized _ a) by done].
    destruct (decide (Local (AName b) ∈ attr_names)) as [Hb|Hb];
      [|by rewrite !(extract_attr_unrecognized _ b) by done].
    apply NoDup_cons in Hnd as [Hnd _].
    apply extract_attr_comm. intros Heq. apply Hnd. rewrite Heq. apply list_elem_of_here.
  - rewrite IH by done. apply IH'. by rewrite <- (recognised_Permutation _ _ Hperm).
Qed.

(** X3: the order of the attributes on the start tag does not matter, as
    long as no two of them share a local name among id, type, to, from and
    lang: the whole call (message, decoder and error) is the same for any
    reordering of the attributes. *)
Theorem attribute_order_irrelevant reg d name attrs attrs' (msg : @Message Err) :
  attrs ≡ₚ attrs' →
  NoDup (recognised attrs) →
  Message_UnmarshalXML Err_UnmarshalXML reg d (mkStart name attrs) msg =
  Message_UnmarshalXML Err_UnmarshalXML reg d (mkStart name attrs') msg.
Proof.
  intros Hperm Hnd. unfold Message_UnmarshalXML. cbn [SAttr SName].
  rewrite (extract_attrs_Permutation _ _ Hperm Hnd). by apply loop_start_End.
Qed.


(** ** The extensions *)

Lemma iteration_extension reg start d (msg : @Message Err) :
  let msg' := turn_msg (iteration Err_UnmarshalXML reg start d msg) in
  Extensions msg' = Extensions msg ∨
  ∃ v, Extensions msg' = Extensions msg ++ [v] ∧ read_from reg d v.
Proof.
  unfold iteration, Decoder_Token, DecodeElement_struct, DecodeElement_string.
  destruct (pending d) as [|t ts] eqn:Hd; [by left|].
  repeat case_match; simplify_eq/=; try (by left).
  right. eexists. split; [done|].
  match goal with
  | H : unmarshal_start _ _ = ok _ |- _ => apply unmarshal_start_ok in H as ->
  end.
  unfold read_from. rewrite <- ext_instance_pointer.
  eexists. rewrite reflect_TypeOf_instance, Hd.
  split; [apply list_elem_of_here|done].
Qed.

(** X4: [UnmarshalXML] only ever appends to [Extensions], and only what
    it read. Whatever the input, well-formed or not, and however the call
    ends, the extensions the message held are still there, in front and
    in their order; each value added is the instance of a registered
    struct for a start tag that was on the stream under the struct's
    registered name. *)
Theorem UnmarshalXML_appends_what_it_read reg d start (msg : @Message Err) :
  ∃ new,
    Extensions (fst (Message_UnmarshalXML Err_UnmarshalXML reg d start msg)) =
      Extensions msg ++ new ∧
    Forall (read_from reg d) new.
Proof.
  unfold Message_UnmarshalXML.
  apply (loop_invariant
    (λ d1 m, (∀ t, t ∈ pending d1 → t ∈ pending d) ∧
             ∃ new, Extensions m = Extensions msg ++ new ∧ Forall (read_from reg d) new)
    (λ m _, ∃ new, Extensions m = Extensions msg ++ new ∧ Forall (read_from reg d) new)).
  - intros d1 m [Hsub (new & Hext & Hnew)].
    pose proof (iteration_extension reg start d1 m) as Hturn. cbv zeta in Hturn.
    assert (Hgoal : ∃ new', Extensions (turn_msg (iteration Err_UnmarshalXML reg start d1 m)) =
                            Extensions msg ++ new' ∧ Forall (read_from reg d) new').
    { destruct Hturn as [->|(v & -> & s & Hs & Hv)]; [by exists new|].
      exists (new ++ [v]). rewrite Hext, app_assoc. split; [done|].
      apply Forall_app. split; [done|]. apply Forall_singleton.
      exists s. split; [by apply Hsub|done]. }
    destruct (iteration Err_UnmarshalXML reg start d1 m) as [m' o|m' d'] eqn:Hit; [done|].
    split; [|done]. intros t Ht. apply Hsub. by eapply iteration_pending.
  - split; [done|]. exists []. split; [|done].
    by rewrite app_nil_r, extract_attrs_Extensions.
Qed.

(** ** Children that are not there *)

Lemma iteration_keeps_Body reg start d (msg : @Message Err) :
  (∀ s, StartTok s ∈ pending d → Local (SName s) ≠ "body") →
  Body (turn_msg (iteration Err_UnmarshalXML reg start d msg)) = Body msg.
Proof.
  unfold iteration, Decoder_Token, DecodeElement_struct, DecodeElement_string.
  intros H. destruct (pending d) as [|t ts]; [done|].
  destruct t as [s| | | | |]; try (repeat case_match; simplify_eq/=; done).
  specialize (H s (list_elem_of_here _ _)).
  repeat case_match; simplify_eq/=; done.
Qed.

Lemma iteration_keeps_Thread reg start d (msg : @Message Err) :
  (∀ s, StartTok s ∈ pending d → Local (SName s) ≠ "thread") →
  Thread (turn_msg (iteration Err_UnmarshalXML reg start d msg)) = Thread msg.
Proof.
  unfold iteration, Decoder_Token, DecodeElement_struct, DecodeElement_string.
  intros H. destruct (pending d) as [|t ts]; [done|].
  destruct t as [s| | | | |]; try (repeat case_match; simplify_eq/=; done).
  specialize (H s (list_elem_of_here _ _)).
  repeat case_match; simplify_eq/=; done.
Qed.

Lemma iteration_keeps_Subject reg start d (msg : @Message Err) :
  (∀ s, StartTok s ∈ pending d → Local (SName s) ≠ "subject") →
  Subject (turn_msg (iteration Err_UnmarshalXML reg start d msg)) = Subject msg.
Proof.
  unfold iteration, Decoder_Token, DecodeElement_struct, DecodeElement_string.
  intros H. destruct (pending d) as [|t ts]; [done|].
  destruct t as [s| | | | |]; try (repeat case_match; simplify_eq/=; done).
  specialize (H s (list_elem_of_here _ _)).
  repeat case_match; simplify_eq/=; done.
Qed.

Lemma iteration_keeps_Error reg start d (msg : @Message Err) :
  (∀ s, StartTok s ∈ pending d → Local (SName s) ≠ "error") →
  Error (turn_msg (iteration Err_UnmarshalXML reg start d msg)) = Error msg.
Proof.
  unfold iteration, Decoder_Token, DecodeElement_struct, DecodeElement_string.
  intros H. destruct (pending d) as [|t ts]; [done|].
  destruct t as [s| | | | |]; try (repeat case_match; simplify_eq/=; done).
  specialize (H s (list_elem_of_here _ _)).
  repeat case_match; simplify_eq/=; done.
Qed.

(** A field that no turn changes while no start tag named [l] is pending
    is the same when the loop is left. *)
Lemma loop_keeps_field {A : Type} (field : @Message Err → A) (l : string) reg start :
  (∀ d msg, (∀ s, StartTok s ∈ pending d → Local (SName s) ≠ l) →
            field (turn_msg (iteration Err_UnmarshalXML reg start d msg)) = field msg) →
  ∀ d msg, (∀ s, StartTok s ∈ pending d → Local (SName s) ≠ l) →
           field (fst (loop Err_UnmarshalXML reg start d msg)) = field msg.
Proof.
  intros Hturn d msg Hd.
  apply (loop_invariant
    (λ d1 m, (∀ s, StartTok s ∈ pending d1 → Local (SName s) ≠ l) ∧ field m = field msg)
    (λ m _, field m = field msg)); [|done].
  intros d1 m [Hd1 Hm]. specialize (Hturn d1 m Hd1).
  destruct (iteration Err_UnmarshalXML reg start d1 m) as [m' o|m' d'] eqn:Hit;
    simpl in Hturn; [congruence|].
  split; [|congruence]. intros s Hs. apply Hd1. by eapply iteration_pending.
Qed.

(** X5: a child that is not there leaves its field as it was. The loop
    assigns [Body] only on reading a start tag with local name [body], and
    likewise [Thread], [Subject] and [Error]: when no start tag with that
    local name is pending, at any depth, the field has after the call the
    value it had before, whatever else the input holds and however the
    call ends. *)
Theorem absent_child_keeps_field reg d start (msg : @Message Err) :
  let msg' := fst (Message_UnmarshalXML Err_UnmarshalXML reg d start msg) in
  ((∀ s, StartTok s ∈ pending d → Local (SName s) ≠ "body") → Body msg' = Body msg) ∧
  ((∀ s, StartTok s ∈ pending d → Local (SName s) ≠ "thread") → Thread msg' = Thread msg) ∧
  ((∀ s, StartTok s ∈ pending d → Local (SName s) ≠ "subject") →
   Subject msg' = Subject msg) ∧
  ((∀ s, StartTok s ∈ pending d → Local (SName s) ≠ "error") → Error msg' = Error msg).
Proof.
  unfold Message_UnmarshalXML. cbv zeta. rewrite UnmarshalXML_start.
  repeat split; intros Hd.
  - by rewrite (loop_keeps_field Body "body" reg start (iteration_keeps_Body reg start)).
  - by rewrite (loop_keeps_field Thread "thread" reg start (iteration_keeps_Thread reg start)).
  - by rewrite (loop_keeps_field Subject "subject" reg start
                  (iteration_keeps_Subject reg start)).
  - by rewrite (loop_keeps_field Error "error" reg start (iteration_keeps_Error reg start)).
Qed.

(** ** Errors *)

Lemma iteration_error reg start d (msg msg' : @Message Err) e :
  registry_coherent reg →
  (∀ s, StartTok s ∈ pending d → Local (SName s) ≠ "error") →
  iteration Err_UnmarshalXML reg start d msg = Return msg' (Failed e) →
  e = failure d.
Proof.
  intros Hreg H. unfold iteration, Decoder_Token, DecodeElement_struct,
    DecodeElement_string, Skip.
  destruct d as [[|t ts] f]; cbn [pending failure] in *; [by intros [= _ <-]|].
  destruct t as [s| | | | |]; try (intros; repeat case_match; simplify_eq/=; done).
  specialize (H s (list_elem_of_here _ _)).
  destruct (registry_lookup reg (SName s)) as [t|] eqn:Hs.
  - rewrite (unmarshal_start_tag _ _ (Hreg _ _ Hs)).
    intros; repeat case_match; simplify_eq/=; done.
  - intros; repeat case_match; simplify_eq/=; done.
Qed.

(** X6: the only error [UnmarshalXML] returns is the tokenizer's own.
    With a registry that holds each struct under its own tag (as the one
    [init] fills does) and no [error] child pending, a call that fails
    returns the very error [Token] reports when the input gives out; it
    makes up none of its own, and a registered child never fails to
    decode. *)
Theorem UnmarshalXML_fails_with_tokenizer_error reg d start (msg : @Message Err) e :
  registry_coherent reg →
  (∀ s, StartTok s ∈ pending d → Local (SName s) ≠ "error") →
  snd (Message_UnmarshalXML Err_UnmarshalXML reg d start msg) = Failed e →
  e = failure d.
Proof.
  intros Hreg Hd. unfold Message_UnmarshalXML. revert e.
  apply (loop_invariant
    (λ d1 (_ : @Message Err),
       failure d1 = failure d ∧ ∀ s, StartTok s ∈ pending d1 → Local (SName s) ≠ "error")
    (λ _ o, ∀ e, o = Failed e → e = failure d)); [|done].
  intros d1 m [Hf Hd1].
  destruct (iteration Err_UnmarshalXML reg start d1 m) as [m' o|m' d'] eqn:Hit.
  - intros e ->. rewrite <- Hf. by eapply iteration_error.
  - split.
    + apply iteration_suffix in Hit as [-> _]. done.
    + intros s Hs. apply Hd1. by eapply iteration_pending.
Qed.

(** ** What a call reads *)

(** Where an element ends depends on the element alone. *)
Lemma split_element_rest depth ts elem rest :
  split_element depth ts = Some (elem, rest) →
  ∀ rest', split_element depth (elem ++ rest') = Some (elem, rest').
Proof.
  revert depth elem rest.
  induction ts as [|t ts IH]; intros depth elem rest H rest'; [done|].
  destruct t; simpl in H;
    try (destruct (split_element depth ts) as [[e r]|] eqn:E; simplify_eq/=;
         by rewrite (IH _ _ _ E)).
  - destruct (split_element (S depth) ts) as [[e r]|] eqn:E; simplify_eq/=.
    by rewrite (IH _ _ _ E).
  - destruct depth as [|k]; [by simplify_eq/=|].
    destruct (split_element k ts) as [[e' r]|] eqn:E; simplify_eq/=.
    by rewrite (IH _ _ _ E).
Qed.

(** A turn that goes round again has read a run of tokens, and does the
    same on any input that begins with that run. *)
Lemma iteration_Continue_local reg start d (msg msg' : @Message Err) d' :
  iteration Err_UnmarshalXML reg start d msg = Continue msg' d' →
  ∃ pre, pending d = pre ++ pending d' ∧ failure d' = failure d ∧
    ∀ rest fail,
      iteration Err_UnmarshalXML reg start (mkDecoder (pre ++ rest) fail) msg =
      Continue msg' (mkDecoder rest fail).
Proof.
  unfold iteration, Decoder_Token, DecodeElement_struct, DecodeElement_string,
    Skip, unmarshalInterface.
  destruct d as [[|t ts] f]; cbn [pending failure]; [done|].
  intros H. repeat case_match; simplify_eq/=;
    try (exists [t]; repeat split; done);
    try (eexists [_]; repeat split; intros; cbn; by rewrite ?decide_False by done).
  all: try match goal with
       | E : split_element 0 ?ts0 = Some (?e, _) |- ∃ pre, ?t :: ?ts0 = _ ∧ _ =>
           exists (t :: e); pose proof (split_element_rest _ _ _ _ E) as Hrest;
           rewrite (split_element_app _ _ _ _ E) at 1
       end.
  all: try (repeat split; try done; intros rest' fail'; cbn; rewrite Hrest).
  all: repeat match goal with
       | H : ?x = _ |- context [?x] => progress rewrite H
       end; try done.
  match goal with
  | |- ∃ pre, ?t :: _ = _ ∧ _ => exists [t]
  end.
  repeat split; try done. intros rest' fail'. cbn.
  repeat match goal with
  | H : ?x = _ |- context [?x] => progress rewrite H
  end; done.
Qed.


(** A turn that returns nil has read the end tag, and nothing else. *)
Lemma iteration_Done_local reg start d (msg msg' : @Message Err) d' :
  iteration Err_UnmarshalXML reg start d msg = Return msg' (Done d') →
  msg' = msg ∧ pending d = EndTok (End start) :: pending d' ∧ failure d' = failure d.
Proof.
  unfold iteration, Decoder_Token, DecodeElement_struct, DecodeElement_string,
    Skip, unmarshalInterface.
  destruct d as [[|t ts] f]; cbn [pending failure]; [done|].
  intros H. repeat case_match; simplify_eq/=. done.
Qed.

Lemma loop_local reg start d (msg msg' : @Message Err) d' :
  loop Err_UnmarshalXML reg start d msg = (msg', Done d') →
  ∃ pre, pending d = pre ++ EndTok (End start) :: pending d' ∧
    failure d' = failure d ∧
    ∀ rest fail,
      loop Err_UnmarshalXML reg start
        (mkDecoder (pre ++ EndTok (End start) :: rest) fail) msg =
      (msg', Done (mkDecoder rest fail)).
Proof.
  remember (length (pending d)) as n eqn:Hn. revert d msg Hn.
  induction n as [n IH] using lt_wf_ind. intros d msg -> Hloop.
  rewrite loop_turn in Hloop.
  destruct (iteration Err_UnmarshalXML reg start d msg) as [m o|m d1] eqn:Hit.
  - simplify_eq. apply iteration_Done_local in Hit as (-> & Hd & Hf).
    exists []. repeat split; try done. intros rest fail. cbn [app].
    by rewrite loop_end, decide_True.
  - destruct (iteration_Continue_local _ _ _ _ _ _ Hit) as (pre & Hpre & Hf & Hlocal).
    destruct (IH (length (pending d1)) (iteration_shorter _ _ _ _ _ _ _ Hit)
                d1 m eq_refl Hloop) as (pre' & Hpre' & Hf' & Hlocal').
    exists (pre ++ pre'). split; [by rewrite Hpre, Hpre', app_assoc|].
    split; [congruence|]. intros rest fail.
    rewrite loop_turn, <- app_assoc, Hlocal. apply Hlocal'.
Qed.

(** X7: a call that returns nil has read a run of tokens that ends in an
    end tag with the stanza's name, and what it returns depends on that
    run alone. The decoder is left right behind the end tag, with the
    tokens after it untouched; and on any other input that begins with the
    same run the call returns the same message and leaves the decoder
    right behind the run: what follows a stanza on the stream has no
    part in how the stanza is decoded. *)
Theorem UnmarshalXML_reads_a_prefix reg d start (msg msg' : @Message Err) d' :
  Message_UnmarshalXML Err_UnmarshalXML reg d start msg = (msg', Done d') →
  ∃ pre, pending d = pre ++ EndTok (End start) :: pending d' ∧
    failure d' = failure d ∧
    ∀ rest fail,
      Message_UnmarshalXML Err_UnmarshalXML reg
        (mkDecoder (pre ++ EndTok (End start) :: rest) fail) start msg =
      (msg', Done (mkDecoder rest fail)).
Proof. unfold Message_UnmarshalXML. apply loop_local. Qed.

(** ** Stanzas of plain children *)

(** X8: what [decode] makes of a stanza of plain children. The packet is
    the empty message given the name and the attributes of the start tag,
    then changed by each child in turn, in document order: a registered
    element appends its value, a [body], [thread] or [subject] element
    sets the field to its text, anything else leaves no trace. The error
    is nil and the decoder is left right behind the stanza's end tag. *)
Theorem decode_plain_children reg se kids rest fail :
  registry_coherent reg →
  forallb (plain_child reg se) kids = true →
  decode Err_zero Err_UnmarshalXML reg
    (mkDecoder (forest_tokens kids ++ EndTok (End se) :: rest) fail) se =
  (children_effect reg kids
     (fold_left extract_attr (SAttr se) (set_XMLName (Message_zero Err_zero) (SName se))),
   Done (mkDecoder rest fail)).
Proof.
  intros Hreg Hkids. unfold decode, unmarshalInterface. cbn [pending failure].
  rewrite split_element_content.
  by rewrite (UnmarshalXML_plain_children Err_UnmarshalXML reg se kids [] EOF _ Hreg Hkids).
Qed.

(** ** The id of an extension *)

Lemma ext_set_attr_other e a : Local (AName a) ≠ "id" → ext_set_attr e a = e.
Proof. intros Ha. unfold ext_set_attr. by rewrite decide_False. Qed.

Lemma ext_set_attrs_other attrs : ∀ e,
  Forall (λ a, Local (AName a) ≠ "id") attrs → fold_left ext_set_attr attrs e = e.
Proof.
  induction attrs as [|a attrs IH]; intros e Hattrs; [done|].
  apply Forall_cons in Hattrs as [Ha Hattrs]. simpl.
  by rewrite ext_set_attr_other, IH.
Qed.

Lemma ext_Id_set_attr e a :
  Local (AName a) = "id" →
  ext_Id (ext_set_attr e a) = if has_Id (reflect_TypeOf e) then Some (Value a) else None.
Proof. intros Ha. unfold ext_set_attr. rewrite decide_True by done. by destruct e. Qed.

(** The [Id] of the value stored for a start tag is the value of the
    last attribute with local name [id]. *)
Lemma ext_instance_Id t name pre sp v post :
  Forall (λ a, Local (AName a) ≠ "id") post →
  ext_Id (ext_struct
            (ext_instance t (mkStart name (pre ++ mkAttr (mkName sp "id") v :: post)))) =
  if has_Id t then Some v else None.
Proof.
  intros Hpost. unfold ext_instance. cbn [SAttr SName ext_struct].
  rewrite fold_left_app. cbn [fold_left]. rewrite ext_set_attrs_other by done.
  rewrite ext_Id_set_attr by done.
  by rewrite reflect_TypeOf_set_attrs, reflect_TypeOf_set_XMLName, reflect_TypeOf_New.
Qed.

Lemma ext_instance_no_Id t name attrs :
  Forall (λ a, Local (AName a) ≠ "id") attrs →
  ext_Id (ext_struct (ext_instance t (mkStart name attrs))) =
  if has_Id t then Some "" else None.
Proof.
  intros Hattrs. unfold ext_instance. cbn [SAttr SName ext_struct].
  rewrite ext_set_attrs_other by done. by destruct t.
Qed.

Lemma ext_embedded_set_attr e a : ext_embedded (ext_set_attr e a) = ext_embedded e.
Proof. unfold ext_set_attr. case_decide; by destruct e. Qed.

(** Nothing is embedded in the struct the decoder stores. *)
Lemma ext_embedded_instance t s : ext_embedded (ext_struct (ext_instance t s)) = None.
Proof.
  unfold ext_instance. cbn [ext_struct].
  generalize (SAttr s). intros attrs.
  assert (H : ∀ e, ext_embedded (fold_left ext_set_attr attrs e) = ext_embedded e).
  { induction attrs as [|a attrs IH]; intros e; [done|].
    simpl. by rewrite IH, ext_embedded_set_attr. }
  rewrite H. by destruct t.
Qed.

(** X9: the [Id] of a registered child. The value stored for a
    registered element among plain children is a pointer to a struct of
    the type registered for the element's name; the struct bears that
    name and has nothing embedded; if it has an [Id] field ([received],
    [displayed], [acknowledged]), the field holds the value of the
    element's last attribute with local name [id], in any name space, and
    is empty when there is none; the element's content and the other
    attributes are dropped. *)
Theorem registered_child_Id reg start name t attrs kids pre post rest fail
    (msg : @Message Err) :
  registry_coherent reg →
  registry_lookup reg name = Some t →
  forallb (plain_child reg start) (pre ++ post) = true →
  ∃ msg' v,
    Message_UnmarshalXML Err_UnmarshalXML reg
      (mkDecoder (forest_tokens (pre ++ Element (mkStart name attrs) kids :: post)
                  ++ EndTok (End start) :: rest) fail) start msg =
    (msg', Done (mkDecoder rest fail)) ∧
    Extensions msg' =
      Extensions msg ++ ext_children reg pre ++ v :: ext_children reg post ∧
    v = Pointer (ext_struct v) ∧
    reflect_TypeOf (ext_struct v) = t ∧ ext_XMLName (ext_struct v) = name ∧
    ext_embedded (ext_struct v) = None ∧
    (∀ a_pre sp val a_post,
       attrs = a_pre ++ mkAttr (mkName sp "id") val :: a_post →
       Forall (λ a, Local (AName a) ≠ "id") a_post →
       ext_Id (ext_struct v) = if has_Id t then Some val else None) ∧
    (Forall (λ a, Local (AName a) ≠ "id") attrs →
     ext_Id (ext_struct v) = if has_Id t then Some "" else None).
Proof.
  intros Hreg Ht Hplain.
  rewrite forallb_app in Hplain. apply andb_true_iff in Hplain as [Hpre Hpost].
  exists (children_effect reg (pre ++ Element (mkStart name attrs) kids :: post)
            (fold_left extract_attr (SAttr start) (set_XMLName msg (SName start)))).
  exists (ext_instance t (mkStart name attrs)).
  split; [|split; [|split; [|split; [|split; [|split; [|split]]]]]].
  - apply UnmarshalXML_plain_children; [done|].
    rewrite forallb_app. apply andb_true_iff. split; [done|].
    cbn [forallb]. apply andb_true_iff. split; [|done].
    unfold plain_child. cbn [SName]. rewrite Ht.
    by rewrite bool_decide_eq_true_2.
  - rewrite children_effect_Extensions, extract_attrs_Extensions. f_equal.
    unfold ext_children. rewrite omap_app. cbn [omap list_omap SName]. by rewrite Ht.
  - apply ext_instance_pointer.
  - apply reflect_TypeOf_instance.
  - apply ext_XMLName_instance.
  - apply ext_embedded_instance.
  - intros a_pre sp val a_post -> Hid. by apply ext_instance_Id.
  - apply ext_instance_no_Id.
Qed.

(** ** What comes back from [XMPPFormat] *)





(** X12: a message built by [NewMessage], written and read back.
    Decoding what [XMPPFormat] writes for
    [NewMessage(msgtype, from, to, id, lang)] returns, with a nil error
    and nothing left unread, the message [NewMessage] builds from the five
    arguments as the encoder writes them (given that nothing is written
    for the zero [Err]). So the message comes back as it is whenever the
    arguments hold nothing XML cannot carry, empty arguments included;
    and the local name [NewMessage] gives the packet is the one [Name]
    reports. *)
Theorem NewMessage_reparse msgtype from to id lang :
  Err_MarshalXML Err_zero = [] →
  reparse Err_zero Err_UnmarshalXML Err_MarshalXML msgTypeRegistry
    (NewMessage Err_zero msgtype from to id lang) =
    Some (NewMessage Err_zero (written msgtype) (written from) (written to) (written id)
            (written lang),
          Done (mkDecoder [] EOF)) ∧
  (Forall verbatim [msgtype; from; to; id; lang] →
   reparse Err_zero Err_UnmarshalXML Err_MarshalXML msgTypeRegistry
     (NewMessage Err_zero msgtype from to id lang) =
     Some (NewMessage Err_zero msgtype from to id lang, Done (mkDecoder [] EOF))) ∧
  Local (XMLName (NewMessage Err_zero msgtype from to id lang)) =
    Message_Name (NewMessage Err_zero msgtype from to id lang).
Proof.
  intros Hzero.
  assert (Hre : reparse Err_zero Err_UnmarshalXML Err_MarshalXML msgTypeRegistry
                  (NewMessage Err_zero msgtype from to id lang) =
                Some (NewMessage Err_zero (written msgtype) (written from) (written to)
                        (written id) (written lang), Done (mkDecoder [] EOF))).
  { rewrite (reparse_reparsed Err_zero Err_UnmarshalXML Err_MarshalXML); [|done|by left].
    unfold reparsed, written_attrs, NewMessage. cbn. by rewrite !written_equation_1. }
  split; [done|]. split; [|done].
  rewrite !Forall_cons. intros (Ht & Hf & Hto & Hid & Hla & _). rewrite Hre.
  by rewrite Ht, Hf, Hto, Hid, Hla.
Qed.

End Further.

(** ** The registry of [init] *)

(** X13: what [init] leaves in [msgTypeRegistry]. A lookup finds a struct
    type exactly under the name of that struct's own [XMLName] tag: the
    six extension structs are all registered, each under the name on its
    tag and under no other, and any other name, in a name space that is
    registered or not, reads as nil. None of the registered local names
    is [body], [thread], [subject] or [error], so no registration keeps
    the loop from a core child. *)
Theorem init_registers_each_tag n :
  (∀ t, registry_lookup msgTypeRegistry n = Some t ↔ XMLName_tag t = n) ∧
  (Local n ∈ core_names → registry_lookup msgTypeRegistry n = None).
Proof.
  split; [|apply msgTypeRegistry_core].
  intros t. split; [apply msgTypeRegistry_coherent|].
  intros <-. apply msgTypeRegistry_complete.
Qed.

(** * The further properties on sample stanzas *)

(** X2 on a start tag that has a [to] and no [id], read into a message
    that holds an id. *)
Lemma absent_attribute_keeps_field_witness :
  attr_field "id"
    (Attrs (fst (Message_UnmarshalXML flag_UnmarshalXML msgTypeRegistry truncated
                   reuse_start reused_message))) =
    attr_field "id" (Attrs reused_message) ∧
  attr_field "id" (Attrs (fst (decode false flag_UnmarshalXML msgTypeRegistry truncated
                                 reuse_start))) = "".
Proof.
  apply (absent_attribute_keeps_field false flag_UnmarshalXML msgTypeRegistry truncated
           reuse_start "id" reused_message).
  - apply list_elem_of_here.
  - repeat constructor. discriminate.
Defined.

(** X3 on [id="1" xml:lang="en" to="bob"], turned round. *)
Lemma attribute_order_irrelevant_witness :
  Message_UnmarshalXML flag_UnmarshalXML msgTypeRegistry truncated
    (mkStart (mkName "jabber:client" "message")
       [mkAttr (mkName "" "id") "1"; mkAttr (mkName "xml" "lang") "en";
        mkAttr (mkName "" "to") "bob"]) (Message_zero false) =
  Message_UnmarshalXML flag_UnmarshalXML msgTypeRegistry truncated
    (mkStart (mkName "jabber:client" "message")
       [mkAttr (mkName "" "to") "bob"; mkAttr (mkName "xml" "lang") "en";
        mkAttr (mkName "" "id") "1"]) (Message_zero false).
Proof.
  apply (attribute_order_irrelevant flag_UnmarshalXML).
  - apply (Permutation_rev [_; _; _]).
  - apply (bool_decide_unpack _). vm_compute. exact I.
Defined.

(** X5 on a stanza with a thread and no body, read into a message that
    holds a body. *)
Lemma absent_child_keeps_field_witness :
  Body (fst (Message_UnmarshalXML flag_UnmarshalXML msgTypeRegistry
               (mkDecoder (forest_tokens reuse_children ++ [EndTok (End reuse_start)]) EOF)
               reuse_start reused_message)) = Body reused_message.
Proof.
  apply (absent_child_keeps_field flag_UnmarshalXML msgTypeRegistry
           (mkDecoder (forest_tokens reuse_children ++ [EndTok (End reuse_start)]) EOF)
           reuse_start reused_message).
  intros s Hs. cbn in Hs. rewrite !elem_of_cons, elem_of_nil in Hs.
  destruct Hs as [[= ->]|[?|[?|[?|[]]]]]; discriminate.
Defined.

(** X6 on the stanza cut off after its body: the error is the
    tokenizer's. *)
Lemma UnmarshalXML_fails_with_tokenizer_error_witness :
  snd (Message_UnmarshalXML flag_UnmarshalXML msgTypeRegistry truncated message_start
         (Message_zero false)) = Failed SyntaxError ∧
  SyntaxError = failure truncated.
Proof.
  split; [vm_compute; reflexivity|].
  apply (UnmarshalXML_fails_with_tokenizer_error flag_UnmarshalXML msgTypeRegistry truncated
           message_start (Message_zero false) SyntaxError).
  - apply msgTypeRegistry_coherent.
  - intros s Hs. cbn in Hs. rewrite !elem_of_cons, elem_of_nil in Hs.
    destruct Hs as [[= ->]|[?|[?|[]]]]; discriminate.
  - vm_compute. reflexivity.
Defined.

(** X7 on a stanza with one body, in front of the next stanza. *)
Lemma UnmarshalXML_reads_a_prefix_witness :
  ∃ pre,
    forest_tokens [first_body] ++ EndTok (End message_start) :: next_stanza =
      pre ++ EndTok (End message_start) :: next_stanza ∧
    EOF = EOF ∧
    ∀ rest fail,
      Message_UnmarshalXML flag_UnmarshalXML msgTypeRegistry
        (mkDecoder (pre ++ EndTok (End message_start) :: rest) fail) message_start
        (Message_zero false) =
      (set_Body (set_Id (set_XMLName (Message_zero false) (SName message_start)) "1") "first",
       Done (mkDecoder rest fail)).
Proof.
  apply (UnmarshalXML_reads_a_prefix flag_UnmarshalXML msgTypeRegistry
           (mkDecoder (forest_tokens [first_body] ++ EndTok (End message_start) :: next_stanza)
              EOF)
           message_start (Message_zero false) _ (mkDecoder next_stanza EOF)).
  vm_compute. reflexivity.
Defined.

(** X8 on the stanza with a child nobody registered and a body. *)
Lemma decode_plain_children_witness :
  decode false flag_UnmarshalXML msgTypeRegistry
    (mkDecoder (forest_tokens unknown_children ++ EndTok (End message_start) :: next_stanza)
       EOF) message_start =
  (children_effect msgTypeRegistry unknown_children
     (fold_left extract_attr (SAttr message_start)
        (set_XMLName (Message_zero false) (SName message_start))),
   Done (mkDecoder next_stanza EOF)).
Proof.
  apply (decode_plain_children false flag_UnmarshalXML msgTypeRegistry message_start
           unknown_children next_stanza EOF).
  - apply msgTypeRegistry_coherent.
  - vm_compute. reflexivity.
Defined.

(** X9 on [<received xmlns="urn:xmpp:receipts" to="x" id="m1" xml:id="m2"/>]
    after a body: the id stored is "m2". *)
Lemma registered_child_Id_witness :
  ∃ msg' v,
    Message_UnmarshalXML flag_UnmarshalXML msgTypeRegistry
      (mkDecoder
         (forest_tokens
            ([first_body] ++
             Element (mkStart (mkName "urn:xmpp:receipts" "received")
                        [mkAttr (mkName "" "to") "x"; mkAttr (mkName "" "id") "m1";
                         mkAttr (mkName "xml" "id") "m2"]) [Text "dropped"] :: []) ++
          EndTok (End message_start) :: next_stanza) EOF)
      message_start (Message_zero false) =
    (msg', Done (mkDecoder next_stanza EOF)) ∧
    Extensions msg' = [v] ∧
    v = Pointer (ext_struct v) ∧
    reflect_TypeOf (ext_struct v) = TReceiptReceived ∧
    ext_XMLName (ext_struct v) = mkName "urn:xmpp:receipts" "received" ∧
    ext_embedded (ext_struct v) = None ∧
    ext_Id (ext_struct v) = Some "m2".
Proof.
  destruct (registered_child_Id flag_UnmarshalXML msgTypeRegistry message_start
              (mkName "urn:xmpp:receipts" "received") TReceiptReceived
              [mkAttr (mkName "" "to") "x"; mkAttr (mkName "" "id") "m1";
               mkAttr (mkName "xml" "id") "m2"] [Text "dropped"]
              [first_body] [] next_stanza EOF (Message_zero false)
              msgTypeRegistry_coherent)
    as (msg' & v & Hdec & Hext & Hptr & Hty & Hname & Hemb & Hid & _).
  - vm_compute. reflexivity.
  - vm_compute. reflexivity.
  - exists msg', v. repeat split; try done.
    apply (Hid [mkAttr (mkName "" "to") "x"; mkAttr (mkName "" "id") "m1"] "xml" "m2" []);
      [reflexivity|constructor].
Defined.



(** X12 on [NewMessage("chat", "alice", "bob", "1", "")]. *)
Lemma NewMessage_reparse_witness :
  reparse false flag_UnmarshalXML flag_MarshalXML msgTypeRegistry
    (NewMessage false "chat" "alice" "bob" "1" "") =
    Some (NewMessage false "chat" "alice" "bob" "1" "", Done (mkDecoder [] EOF)).
Proof.
  apply (NewMessage_reparse false flag_UnmarshalXML flag_MarshalXML
           "chat" "alice" "bob" "1" "").
  - reflexivity.
  - repeat constructor; vm_compute; reflexivity.
Defined.

(** X13 on a name that is not registered: [body] in a name space of its
    own. *)
Lemma init_registers_each_tag_witness :
  registry_lookup msgTypeRegistry (mkName "urn:example" "body") = None.
Proof.
  apply (init_registers_each_tag (mkName "urn:example" "body")).
  apply list_elem_of_here.
Defined.
